(** * jupyterlab_s3_browser/handlers.py: a shallow embedding

    The request handlers of the S3 browser server extension, embedded as
    functions in a state-and-exception monad over an abstract object store.
    The store client (s3fs), the SDK (boto3), [json.loads] and the request
    object are collaborators of the handlers: they appear as an interface
    ([Env]) whose operations the handlers call in the order the Python code
    calls them.  A small in-memory store ([Mem]) implements the interface and
    is used to run the handlers on concrete inputs. *)

From Stdlib Require Import String Ascii List Bool Arith ZArith Lia.
Import ListNotations.
Open Scope string_scope.
Open Scope list_scope.

Set Implicit Arguments.

(** ** Python values

    [str] values are strings of code points below 256 (Rocq's [ascii] is an
    8-bit character); [bytes] values are lists of 8-bit characters. *)

Definition str := string.
Definition bytes := list ascii.

Module PyStr.

Definition slash : ascii := "/"%char.

(** [s.endswith(suf)] *)
Fixpoint endswith (s suf : str) : bool :=
  (s =? suf) ||
  match s with
  | EmptyString => false
  | String _ r => endswith r suf
  end.

(** [s.startswith(p)] *)
Definition startswith (s p : str) : bool := prefix p s.

(** [c in s] for a one-character string [c] *)
Fixpoint contains (c : ascii) (s : str) : bool :=
  match s with
  | EmptyString => false
  | String d r => (d =? c)%char || contains c r
  end.

(** [s.count(c)] for a one-character string [c] *)
Fixpoint count (c : ascii) (s : str) : nat :=
  match s with
  | EmptyString => 0
  | String d r => (if (d =? c)%char then 1 else 0) + count c r
  end.

(** [s.split(c, 1)]: [None] stands for the one-element list Python returns
    when [c] does not occur, [Some (a, b)] for the two-element list. *)
Fixpoint split1 (c : ascii) (s : str) : option (str * str) :=
  match s with
  | EmptyString => None
  | String d r =>
      if (d =? c)%char then Some (EmptyString, r)
      else match split1 c r with
           | Some (a, b) => Some (String d a, b)
           | None => None
           end
  end.

(** [s.rsplit(c, 1)[-1]]: what follows the last [c], all of [s] when [c]
    does not occur. *)
Fixpoint rsplit_last (c : ascii) (s : str) : str :=
  match s with
  | EmptyString => EmptyString
  | String d r =>
      if contains c r then rsplit_last c r
      else if (d =? c)%char then r else s
  end.

(** [s.lower()] on code points below 256: A-Z, and the Latin-1 capitals
    U+00C0..U+00DE except the multiplication sign U+00D7, move up by 32. *)
Definition lower_char (c : ascii) : ascii :=
  let n := nat_of_ascii c in
  if (((65 <=? n) && (n <=? 90)) || ((192 <=? n) && (n <=? 222) && negb (n =? 215)))%nat
  then ascii_of_nat (n + 32) else c.

Fixpoint lower (s : str) : str :=
  match s with
  | EmptyString => EmptyString
  | String c r => String (lower_char c) (lower r)
  end.

(** [c.isspace()] on code points below 256 *)
Definition isspace (c : ascii) : bool :=
  let n := nat_of_ascii c in
  (((9 <=? n) && (n <=? 13)) || ((28 <=? n) && (n <=? 32)) || (n =? 133) || (n =? 160))%nat.

Fixpoint lstrip (s : str) : str :=
  match s with
  | EmptyString => EmptyString
  | String c r => if isspace c then lstrip r else s
  end.

Fixpoint rstrip (s : str) : str :=
  match s with
  | EmptyString => EmptyString
  | String c r =>
      match rstrip r with
      | EmptyString => if isspace c then EmptyString else String c EmptyString
      | r' => String c r'
      end
  end.

(** [s.strip()] *)
Definition strip (s : str) : str := rstrip (lstrip s).

(** Truth value of a [str]: non-empty. *)
Definition truthy (s : str) : bool :=
  match s with EmptyString => false | _ => true end.

End PyStr.

(** ** [base64.encodebytes], and the decoder it is paired with *)

Module Base64.

(** A 6-bit group, least significant bit first. *)
Definition sextet : Type := bool * bool * bool * bool * bool * bool.

Definition sextet_index (x : sextet) : nat :=
  let '(b0, b1, b2, b3, b4, b5) := x in
  Nat.b2n b0 + 2 * Nat.b2n b1 + 4 * Nat.b2n b2 + 8 * Nat.b2n b3
  + 16 * Nat.b2n b4 + 32 * Nat.b2n b5.

Definition alphabet : bytes :=
  list_ascii_of_string
    "ABCDEFGHIJKLMNOPQRSTUVWXYZabcdefghijklmnopqrstuvwxyz0123456789+/".

Definition pad : ascii := "="%char.
Definition newline : ascii := "010"%char.

(** [table_b2a_base64[x]] *)
Definition b2a (x : sextet) : ascii := nth (sextet_index x) alphabet pad.

Definition sextet_of_nat (n : nat) : sextet :=
  (Nat.testbit n 0, Nat.testbit n 1, Nat.testbit n 2,
   Nat.testbit n 3, Nat.testbit n 4, Nat.testbit n 5).

(** [table_a2b_base64[c]]: [None] for a character outside the alphabet. *)
Definition a2b (c : ascii) : option sextet :=
  let n := nat_of_ascii c in
  if ((65 <=? n) && (n <=? 90))%nat then Some (sextet_of_nat (n - 65))
  else if ((97 <=? n) && (n <=? 122))%nat then Some (sextet_of_nat (n - 97 + 26))
  else if ((48 <=? n) && (n <=? 57))%nat then Some (sextet_of_nat (n - 48 + 52))
  else if (n =? 43)%nat then Some (sextet_of_nat 62)
  else if (n =? 47)%nat then Some (sextet_of_nat 63)
  else None.

(** The four 6-bit groups of three bytes [a b c]:
    [a >> 2], [(a & 3) << 4 | b >> 4], [(b & 15) << 2 | c >> 6], [c & 63]. *)
Definition q1 (a : ascii) : sextet :=
  let '(Ascii _ _ a2 a3 a4 a5 a6 a7) := a in (a2, a3, a4, a5, a6, a7).
Definition q2 (a b : ascii) : sextet :=
  let '(Ascii a0 a1 _ _ _ _ _ _) := a in
  let '(Ascii _ _ _ _ b4 b5 b6 b7) := b in (b4, b5, b6, b7, a0, a1).
Definition q3 (b c : ascii) : sextet :=
  let '(Ascii b0 b1 b2 b3 _ _ _ _) := b in
  let '(Ascii _ _ _ _ _ _ c6 c7) := c in (c6, c7, b0, b1, b2, b3).
Definition q4 (c : ascii) : sextet :=
  let '(Ascii c0 c1 c2 c3 c4 c5 _ _) := c in (c0, c1, c2, c3, c4, c5).

Definition zero : ascii := Ascii.zero.

(** The body of [binascii.b2a_base64] without its final newline: three
    bytes give four characters, a rest of one or two bytes is padded. *)
Fixpoint b2a_groups (s : bytes) : bytes :=
  match s with
  | [] => []
  | [a] => [b2a (q1 a); b2a (q2 a zero); pad; pad]
  | [a; b] => [b2a (q1 a); b2a (q2 a b); b2a (q3 b zero); pad]
  | a :: b :: c :: r =>
      b2a (q1 a) :: b2a (q2 a b) :: b2a (q3 b c) :: b2a (q4 c) :: b2a_groups r
  end.

(** [binascii.b2a_base64(chunk)] *)
Definition b2a_base64 (chunk : bytes) : bytes := b2a_groups chunk ++ [newline].

Definition MAXBINSIZE : nat := 57.

(** [s[i : i + n] for i in range(0, len(s), n)] *)
Fixpoint chunks_from (fuel n : nat) (s : bytes) : list bytes :=
  match fuel with
  | 0 => []
  | S fuel' =>
      match s with
      | [] => []
      | _ => firstn n s :: chunks_from fuel' n (skipn n s)
      end
  end.

Definition chunks (n : nat) (s : bytes) : list bytes := chunks_from (length s) n s.

(** [base64.encodebytes(s)] *)
Definition encodebytes (s : bytes) : bytes :=
  concat (map b2a_base64 (chunks MAXBINSIZE s)).

(** Modelled from the spec: the base64 decoding a reader of a response
    applies to [content] (section 8, round trip), which handlers.py does
    not contain.  Characters outside the alphabet (the line breaks) are
    skipped, four characters give three bytes, and padding ends the data. *)
Definition significant (c : ascii) : bool :=
  match a2b c with Some _ => true | None => (c =? pad)%char end.

Definition d1 (x y : sextet) : ascii :=
  let '(x0, x1, x2, x3, x4, x5) := x in
  let '(_, _, _, _, y4, y5) := y in Ascii y4 y5 x0 x1 x2 x3 x4 x5.
Definition d2 (y z : sextet) : ascii :=
  let '(y0, y1, y2, y3, _, _) := y in
  let '(_, _, z2, z3, z4, z5) := z in Ascii z2 z3 z4 z5 y0 y1 y2 y3.
Definition d3 (z t : sextet) : ascii :=
  let '(z0, z1, _, _, _, _) := z in
  let '(t0, t1, t2, t3, t4, t5) := t in Ascii t0 t1 t2 t3 t4 t5 z0 z1.

Fixpoint decode_quads (l : bytes) : bytes :=
  match l with
  | a :: b :: c :: d :: r =>
      match a2b a, a2b b with
      | Some x, Some y =>
          match a2b c with
          | None => [d1 x y]
          | Some z =>
              match a2b d with
              | None => [d1 x y; d2 y z]
              | Some t => d1 x y :: d2 y z :: d3 z t :: decode_quads r
              end
          end
      | _, _ => []
      end
  | _ => []
  end.

Definition decode (s : bytes) : bytes := decode_quads (filter significant s).

End Base64.

(** ** Text-mode encoding

    A file opened in text mode without an explicit encoding encodes what is
    written with UTF-8: a code point below 128 is one byte, a code point
    from 128 to 255 the two bytes [0xC0 | c >> 6] and [0x80 | c & 0x3F]. *)

Module Utf8.

Definition encode_char (c : ascii) : bytes :=
  let '(Ascii c0 c1 c2 c3 c4 c5 c6 c7) := c in
  if c7
  then [Ascii c6 c7 false false false false true true;
        Ascii c0 c1 c2 c3 c4 c5 false true]
  else [c].

Fixpoint encode (s : str) : bytes :=
  match s with
  | EmptyString => []
  | String c r => encode_char c ++ encode r
  end.

Fixpoint is_ascii (s : str) : bool :=
  match s with
  | EmptyString => true
  | String (Ascii _ _ _ _ _ _ _ c7) r => negb c7 && is_ascii r
  end.

End Utf8.

(** ** JSON values: what [json.loads] returns and [json.dumps] is given *)

#[local] Set Warnings "-register-all".

Inductive json : Type :=
| JNull
| JBool (b : bool)
| JInt (n : Z)
| JFloat (repr : str)
| JStr (s : str)
| JList (l : list json)
| JDict (items : list (str * json)).

Module PyDict.

(** [d[k] = v]: an existing key keeps its place and takes the new value. *)
Fixpoint set (d : list (str * json)) (k : str) (v : json) : list (str * json) :=
  match d with
  | [] => [(k, v)]
  | (k', v') :: r => if (k' =? k)%string then (k', v) :: r else (k', v') :: set r k v
  end.

(** A dict display [{k1: v1, k2: v2, ...}]: the items are stored from left
    to right, so a repeated key keeps the last value. *)
Definition literal (items : list (str * json)) : json :=
  JDict (fold_left (fun d kv => set d (fst kv) (snd kv)) items []).

Fixpoint lookup (d : list (str * json)) (k : str) : option json :=
  match d with
  | [] => None
  | (k', v) :: r => if (k' =? k)%string then Some v else lookup r k
  end.

(** The field [k] of a JSON value that is a dict holding it. *)
Definition field (j : json) (k : str) : option json :=
  match j with JDict d => lookup d k | _ => None end.

End PyDict.

(** ** Exceptions

    The classes the handlers name, the built-in ones their own expressions
    can raise, and [OtherException] for an exception of any other class
    raised by a collaborator.  Every class is a subclass of [Exception]. *)

Inductive exn : Type :=
| S3ResourceNotFoundException (msg : str)
| DirectoryNotEmptyException (msg : str)
| NoCredentialsError (msg : str)
| ClientError (code : str) (msg : str)
| FileNotFoundError (msg : str)
| KeyError (msg : str)
| IndexError (msg : str)
| TypeError (msg : str)
| ValueError (msg : str)
| OtherException (cls : str) (msg : str).

(** [str(e)] *)
Definition str_of_exn (e : exn) : str :=
  match e with
  | S3ResourceNotFoundException m | DirectoryNotEmptyException m
  | NoCredentialsError m | ClientError _ m | FileNotFoundError m
  | KeyError m | IndexError m | TypeError m | ValueError m
  | OtherException _ m => m
  end.

Definition is_S3ResourceNotFoundException (e : exn) : bool :=
  match e with S3ResourceNotFoundException _ => true | _ => false end.

Definition is_DirectoryNotEmptyException (e : exn) : bool :=
  match e with DirectoryNotEmptyException _ => true | _ => false end.

(** ** State and exceptions

    A computation runs on a state and either returns a value or raises; the
    state it leaves is kept in both cases, as the effects of Python code are
    when an exception unwinds. *)

Definition M (St A : Type) : Type := St -> (exn + A) * St.

Definition ret {St A} (a : A) : M St A := fun s => (inr a, s).

Definition raise {St A} (e : exn) : M St A := fun s => (inl e, s).

Definition bind {St A B} (m : M St A) (k : A -> M St B) : M St B :=
  fun s =>
    match m s with
    | (inr a, s') => k a s'
    | (inl e, s') => (inl e, s')
    end.

(** [try: m  except Exception as e: h e] *)
Definition try_except {St A} (m : M St A) (h : exn -> M St A) : M St A :=
  fun s =>
    match m s with
    | (inr a, s') => (inr a, s')
    | (inl e, s') => h e s'
    end.

(** A pure expression that may raise. *)
Definition eval {St A} (r : exn + A) : M St A := fun s => (r, s).

Declare Scope monad_scope.
Delimit Scope monad_scope with monad.
Notation "x <- m ;; k" := (bind m (fun x => k))
  (at level 61, m at next level, right associativity) : monad_scope.
Notation "m ;; k" := (bind m (fun _ => k))
  (at level 61, right associativity) : monad_scope.
Open Scope monad_scope.

(** ** The collaborators *)

(** How an [S3FileSystem] or a boto3 resource was constructed: without
    arguments, or with the explicit credentials of the configuration. *)
Inductive credentials : Type :=
| Ambient
| Explicit (key secret token endpoint_url : str).

(** [self.settings["s3_config"]] *)
Record Config : Type := {
  endpoint_url : str;
  client_id : str;
  client_secret : str;
  session_token : str
}.

(** An element of [s3fs.listdir(...)], of which the handlers read two keys. *)
Record s3_entry : Type := { Key : str; type_ : str }.

Inductive mode : Type := rb | w.

(** [self.request] *)
Record Request : Type := {
  headers : list (str * str);
  body : bytes
}.

Record Env : Type := {
  W : Type;    (** the object store and the server's file system *)
  FH : Type;   (** open file objects *)
  (** methods of [s3fs.S3FileSystem], on the instance given first *)
  invalidate_cache : credentials -> M W unit;
  open_ : credentials -> str -> mode -> M W FH;
  read : FH -> M W bytes;
  write : FH -> str -> M W unit;
  close : FH -> M W unit;
  listdir : credentials -> str -> M W (list s3_entry);
  cp : credentials -> str -> str -> bool -> M W unit;
  move : credentials -> str -> str -> bool -> M W unit;
  mkdir : credentials -> str -> M W unit;
  touch : credentials -> str -> M W unit;
  exists_ : credentials -> str -> M W bool;
  rm : credentials -> str -> M W unit;
  (** [resource.Bucket(b).objects.filter(Prefix=p).delete()] *)
  bucket_objects_filter_delete : credentials -> str -> str -> M W unit;
  (** [boto3.client("s3")]: the names in [list_buckets()["Buckets"]],
      [list_objects_v2(Bucket=b, MaxKeys=1)], [head_bucket(Bucket=b)] *)
  list_buckets : M W (list str);
  list_objects_v2 : str -> M W unit;
  head_bucket : str -> M W unit;
  (** the names of [resource.buckets.all()] *)
  buckets_all : credentials -> M W (list str);
  (** [~/.aws/credentials]: [None] when the file does not exist, its
      [readlines()] otherwise *)
  aws_credentials_file : M W (option (list str));
  json_loads : bytes -> exn + json
}.

(** ** handlers.py *)

(** Lines 19-41: [create_s3fs] and [create_s3_resource] pass the explicit
    credentials when the configuration has all three of them. *)
Definition explicit_configured (config : Config) : bool :=
  PyStr.truthy (endpoint_url config) && PyStr.truthy (client_id config)
  && PyStr.truthy (client_secret config).

Definition create_s3fs (config : Config) : credentials :=
  if explicit_configured config
  then Explicit (client_id config) (client_secret config) (session_token config)
         (endpoint_url config)
  else Ambient.

Definition create_s3_resource (config : Config) : credentials :=
  if explicit_configured config
  then Explicit (client_id config) (client_secret config) (session_token config)
         (endpoint_url config)
  else Ambient.

(** The dict [convertS3FStoJupyterFormat] returns. *)
Record jupyter_entry : Type := { name : str; path : str; jtype : str }.

(** Lines 166-171 *)
Definition convertS3FStoJupyterFormat (result : s3_entry) : jupyter_entry :=
  {| name := PyStr.rsplit_last PyStr.slash (Key result);
     path := Key result;
     jtype := type_ result |}.

Definition json_of_entry (x : jupyter_entry) : json :=
  PyDict.literal [("name", JStr (name x)); ("path", JStr (path x)); ("type", JStr (jtype x))].

(** [base64.encodebytes(b).decode("ascii")] *)
Definition b64 (b : bytes) : str := string_of_list_ascii (Base64.encodebytes b).

Definition file_result (p content : str) : json :=
  PyDict.literal [("path", JStr p); ("type", JStr "file"); ("content", JStr content)].

Definition not_found_result : json :=
  PyDict.literal [("error", JInt 404);
                  ("message", JStr "The requested resource could not be found.")].

Definition internal_error_result (e : exn) : json :=
  PyDict.literal [("error", JInt 500); ("message", JStr (str_of_exn e))].

(** [name in self.request.headers] and [self.request.headers[name]]; the
    request holds header names in their canonical spelling. *)
Fixpoint header (hs : list (str * str)) (n : str) : option str :=
  match hs with
  | [] => None
  | (k, v) :: r => if (k =? n)%string then Some v else header r n
  end.

Definition has_header (request : Request) (n : str) : bool :=
  match header (headers request) n with Some _ => true | None => false end.

(** [request[k]] on what [json.loads] returned *)
Definition subscript (request : json) (k : str) : exn + json :=
  match request with
  | JDict d =>
      match PyDict.lookup d k with
      | Some v => inr v
      | None => inl (KeyError ("'" ++ k ++ "'")%string)
      end
  | JList _ => inl (TypeError "list indices must be integers or slices, not str")
  | JStr _ => inl (TypeError "string indices must be integers, not 'str'")
  | JNull => inl (TypeError "'NoneType' object is not subscriptable")
  | JBool _ => inl (TypeError "'bool' object is not subscriptable")
  | JInt _ => inl (TypeError "'int' object is not subscriptable")
  | JFloat _ => inl (TypeError "'float' object is not subscriptable")
  end.

(** The name an error message gives to the type of a decoded JSON value;
    [None] is named by itself. *)
Definition type_name (v : json) : str :=
  match v with
  | JNull => "None"
  | JBool _ => "bool"
  | JInt _ => "int"
  | JFloat _ => "float"
  | JStr _ => "str"
  | JList _ => "list"
  | JDict _ => "dict"
  end.

(** The [TypeError] of [f.write(v)] on a text file for a [v] that is not
    a [str]. *)
Definition write_type_error (v : json) : exn :=
  TypeError ("write() argument must be str, not " ++ type_name v)%string.

Section Handlers.

Variable E : Env.

(** The handler instance: its two lazily created attributes. *)
Record Self : Type := { s3fs : option credentials; s3_resource : option credentials }.

Definition St : Type := (Self * W E)%type.

Definition world (st : St) : W E := snd st.

(** An operation of a collaborator, run from a handler method. *)
Definition call {A} (m : M (W E) A) : M St A :=
  fun st => let '(r, w') := m (snd st) in (r, (fst st, w')).

(** [if not self.s3fs: self.s3fs = create_s3fs(self.config)] *)
Definition get_s3fs (config : Config) : M St credentials :=
  fun st =>
    match s3fs (fst st) with
    | Some fs => (inr fs, st)
    | None =>
        let fs := create_s3fs config in
        (inr fs, ({| s3fs := Some fs; s3_resource := s3_resource (fst st) |}, snd st))
    end.

(** [if not self.s3_resource: self.s3_resource = create_s3_resource(self.config)] *)
Definition get_s3_resource (config : Config) : M St credentials :=
  fun st =>
    match s3_resource (fst st) with
    | Some r => (inr r, st)
    | None =>
        let r := create_s3_resource config in
        (inr r, ({| s3fs := s3fs (fst st); s3_resource := Some r |}, snd st))
    end.

(** [with self.s3fs.open(p, m) as f: body]: the file is closed when the
    body ends, also when it raises; an exception of [close] replaces the
    one of the body. *)
Definition with_open {A} (fs : credentials) (p : str) (m : mode)
    (body : FH E -> M St A) : M St A :=
  f <- call (open_ E fs p m) ;;
  fun st =>
    match body f st with
    | (inr a, st1) =>
        match call (close E f) st1 with
        | (inr _, st2) => (inr a, st2)
        | (inl e, st2) => (inl e, st2)
        end
    | (inl e, st1) =>
        match call (close E f) st1 with
        | (inr _, st2) => (inl e, st2)
        | (inl e', st2) => (inl e', st2)
        end
    end.

(** Lines 197-202, 237-242 and 246-251: read the object and return it as
    a file result. *)
Definition read_back (fs : credentials) (p : str) : M St json :=
  with_open fs p rb (fun f =>
    content <- call (read E f) ;;
    ret (file_result p (b64 content))).

(** *** [S3Handler.get], lines 183-216 *)

Definition is_file_request (request : Request) (p : str) : bool :=
  (PyStr.truthy p && negb (PyStr.endswith p "/"))
  && negb (has_header request "X-Custom-S3-Is-Dir").

Definition listing_result (raw : list s3_entry) : json :=
  let raw_result := map convertS3FStoJupyterFormat raw in
  JList (map json_of_entry
           (filter (fun x => negb (name x =? "")%string) raw_result)).

Definition get_try (config : Config) (request : Request) (p : str) : M St json :=
  fs <- get_s3fs config ;;
  call (invalidate_cache E fs) ;;
  if is_file_request request p
  then read_back fs p
  else
    raw <- call (listdir E fs p) ;;
    ret (listing_result raw).

Definition get_except (e : exn) : json :=
  if is_S3ResourceNotFoundException e then not_found_result
  else internal_error_result e.

(** The value given to [json.dumps] and [self.finish]. *)
Definition get (config : Config) (request : Request) (p : str) (st : St) : json * St :=
  match get_try config request p st with
  | (inr result, st') => (result, st')
  | (inl e, st') => (get_except e, st')
  end.

(** *** [S3Handler.put], lines 219-280 *)

(** [f.write(v)] on a text file: [v] must be a [str]. *)
Definition write_value (f : FH E) (v : json) : M St unit :=
  match v with
  | JStr s => call (write E f s)
  | _ => raise (write_type_error v)
  end.

Definition put_copy (fs : credentials) (p source : str) : M St json :=
  let p := if negb (PyStr.contains PyStr.slash source) then (p ++ "/.keep")%string else p in
  call (cp E fs source p true) ;;
  read_back fs p.

Definition put_move (fs : credentials) (p source : str) : M St json :=
  call (move E fs source p true) ;;
  read_back fs p.

Definition put_mkdir (fs : credentials) (p : str) : M St json :=
  let p := PyStr.lower p in
  let p := if negb (PyStr.endswith p "/") then (p ++ "/")%string else p in
  call (mkdir E fs p) ;;
  call (touch E fs (p ++ ".keep")%string) ;;
  ret (PyDict.literal []).

Definition put_write (fs : credentials) (request : Request) (p : str) : M St json :=
  request <- eval (json_loads E (body request)) ;;
  with_open fs p w (fun f =>
    content <- eval (subscript request "content") ;;
    write_value f content ;;
    content <- eval (subscript request "content") ;;
    ret (PyDict.literal [("path", JStr p); ("type", JStr "file"); ("content", content)])).

Definition put_try (config : Config) (request : Request) (p : str) : M St json :=
  fs <- get_s3fs config ;;
  match header (headers request) "X-Custom-S3-Copy-Src" with
  | Some source => put_copy fs p source
  | None =>
      match header (headers request) "X-Custom-S3-Move-Src" with
      | Some source => put_move fs p source
      | None =>
          if has_header request "X-Custom-S3-Is-Dir" then put_mkdir fs p
          else
            match body request with
            | _ :: _ => put_write fs request p
            | [] => ret (PyDict.literal [])
            end
      end
  end.

Definition put_except (e : exn) : json :=
  if is_S3ResourceNotFoundException e then not_found_result
  else if is_DirectoryNotEmptyException e
  then PyDict.literal [("error", JInt 400); ("message", JStr "Directory not empty")]
  else internal_error_result e.

Definition put (config : Config) (request : Request) (p : str) (st : St) : json * St :=
  match put_try config request p st with
  | (inr result, st') => (result, st')
  | (inl e, st') => (put_except e, st')
  end.

(** *** [S3Handler.delete], lines 283-339 *)

(** Lines 303-306 *)
Definition is_directory (p : str) (objects_matching_prefix : list s3_entry) : bool :=
  (1 <? length objects_matching_prefix)%nat
  || match objects_matching_prefix with
     | [o] => negb (Key o =? p)%string
     | _ => false
     end.

(** Lines 309-312: the condition under which a directory is refused. *)
Definition is_not_empty (p : str) (objects_matching_prefix : list s3_entry) : bool :=
  (1 <? length objects_matching_prefix)%nat
  || match objects_matching_prefix with
     | [o] => negb (Key o =? p ++ "/")%string
     | _ => false
     end.

(** Lines 316-321: the removal of a directory that passed the check. *)
Definition remove_directory (fs resource : credentials) (p : str) : M St unit :=
  if (1 <? PyStr.count PyStr.slash p)%nat
  then
    match PyStr.split1 PyStr.slash p with
    | Some (bucket_name, prefix) =>
        call (bucket_objects_filter_delete E resource bucket_name prefix)
    | None => raise (ValueError "not enough values to unpack (expected 2, got 1)")
    end
  else call (rm E fs p).

(** Lines 299-302: the marker is removed, then the prefix is listed. *)
Definition remove_marker_and_list (fs : credentials) (p : str) : M St (list s3_entry) :=
  marker <- call (exists_ E fs (p ++ "/.keep")%string) ;;
  (if marker : bool then call (rm E fs (p ++ "/.keep")%string) else ret tt) ;;
  call (listdir E fs (p ++ "/")%string).

Definition delete_try (config : Config) (p : str) : M St json :=
  fs <- get_s3fs config ;;
  resource <- get_s3_resource config ;;
  objects_matching_prefix <- remove_marker_and_list fs p ;;
  (if is_directory p objects_matching_prefix
   then
     if is_not_empty p objects_matching_prefix
     then raise (DirectoryNotEmptyException "")
     else remove_directory fs resource p
   else call (rm E fs p)) ;;
  ret (PyDict.literal []).

Definition dir_not_empty_result : json :=
  PyDict.literal [("error", JInt 400); ("error", JStr "DIR_NOT_EMPTY")].

Definition delete_except (e : exn) : json :=
  if is_S3ResourceNotFoundException e then not_found_result
  else if is_DirectoryNotEmptyException e then dir_not_empty_result
  else internal_error_result e.

Definition delete (config : Config) (p : str) (st : St) : json * St :=
  match delete_try config p st with
  | (inr result, st') => (result, st')
  | (inl e, st') => (delete_except e, st')
  end.

(** *** Authentication, lines 44-159 *)

Definition bucket_entry (b : str) : jupyter_entry :=
  {| name := (b ++ "/")%string; path := (b ++ "/")%string; jtype := "directory" |}.

(** Lines 52-64: the loop over the buckets.  A [ClientError] whose code
    is [AccessDenied] leaves the bucket out, any other is raised again. *)
Fixpoint accessible_buckets (all_buckets : list str) : M (W E) (list jupyter_entry) :=
  match all_buckets with
  | [] => ret []
  | bucket :: rest =>
      ok <- try_except (list_objects_v2 E bucket ;; ret true)
              (fun e =>
                 match e with
                 | ClientError code _ =>
                     if (code =? "AccessDenied")%string then ret false else raise e
                 | _ => raise e
                 end) ;;
      others <- accessible_buckets rest ;;
      ret (if ok : bool then bucket_entry bucket :: others else others)
  end.

(** Lines 44-66 *)
Definition _test_aws_s3_role_access : M (W E) (list jupyter_entry) :=
  all_buckets <- list_buckets E ;;
  accessible_buckets all_buckets.

(** Lines 76-84: [true] when the loop reaches [return False]. *)
Fixpoint invalid_access_key_id (lines : list str) : exn + bool :=
  match lines with
  | [] => inr false
  | line :: rest =>
      if PyStr.startswith line "aws_access_key_id"
      then
        match PyStr.split1 "="%char line with
        | None => inl (IndexError "list index out of range")
        | Some (_, value) =>
            let access_key_id := PyStr.strip value in
            if negb (PyStr.startswith access_key_id "AKIA")
               && negb (PyStr.startswith access_key_id "ASIA")
            then inr true
            else invalid_access_key_id rest
        end
      else invalid_access_key_id rest
  end.

(** Lines 69-93 *)
Definition has_aws_s3_role_access : M (W E) bool :=
  credentials_file <- aws_credentials_file E ;;
  invalid <- match credentials_file with
             | Some lines => eval (invalid_access_key_id lines)
             | None => ret false
             end ;;
  if invalid : bool then ret false
  else try_except (_test_aws_s3_role_access ;; ret true) (fun _ => ret false).

(** Lines 95-104 *)
Definition check_bucket_access (bucket_name : str) : M (W E) bool :=
  try_except (head_bucket E bucket_name ;; ret true) (fun _ => ret false).

Fixpoint checked_buckets (all_buckets : list str) : M (W E) (list jupyter_entry) :=
  match all_buckets with
  | [] => ret []
  | bucket :: rest =>
      ok <- check_bucket_access bucket ;;
      others <- checked_buckets rest ;;
      ret (if ok : bool then bucket_entry bucket :: others else others)
  end.

(** Lines 107-125 *)
Definition test_s3_credentials (endpoint client_id client_secret session_token : str)
    : M (W E) unit :=
  let test := Explicit client_id client_secret session_token endpoint in
  all_buckets <- buckets_all E test ;;
  checked_buckets all_buckets ;;
  ret tt.

(** Lines 142-157: the explicit attempt, with its [except Exception]. *)
Definition explicit_attempt (config : Config) : M (W E) bool :=
  try_except
    (if explicit_configured config
     then
       test_s3_credentials (endpoint_url config) (client_id config)
         (client_secret config) (session_token config) ;;
       ret true
     else ret false)
    (fun _ => ret false).

(** [AuthHandler.get], lines 134-159: the value given to [json.dumps]. *)
Definition auth_get (config : Config) : M (W E) json :=
  role <- has_aws_s3_role_access ;;
  authenticated <- (if role : bool then ret true else explicit_attempt config) ;;
  ret (PyDict.literal [("authenticated", JBool authenticated)]).

End Handlers.

(** ** An in-memory object store

    Objects are kept by their full key ([bucket/key]) in listing order.  A
    file opened for writing collects what is written, encoded as text-mode
    files encode it, and becomes an object when it is closed. *)

Module Mem.

Section Assoc.
Variable A : Type.

Fixpoint lookup (l : list (str * A)) (k : str) : option A :=
  match l with
  | [] => None
  | (k', v) :: r => if (k' =? k)%string then Some v else lookup r k
  end.

Fixpoint put (l : list (str * A)) (k : str) (v : A) : list (str * A) :=
  match l with
  | [] => [(k, v)]
  | (k', v') :: r => if (k' =? k)%string then (k, v) :: r else (k', v') :: put r k v
  end.

Definition remove (l : list (str * A)) (k : str) : list (str * A) :=
  filter (fun kv => negb (fst kv =? k)%string) l.
End Assoc.

Record world : Type := {
  objects : list (str * bytes);
  buffers : list (str * bytes);           (** files open for writing *)
  credentials_file : option (list str);   (** [~/.aws/credentials] *)
  role_access : bool;                     (** ambient credentials are there *)
  denied : list str;                      (** buckets that answer AccessDenied *)
  accepted_secret : str                   (** the secret the endpoint accepts *)
}.

Definition with_objects (x : world) (o : list (str * bytes)) : world :=
  {| objects := o; buffers := buffers x; credentials_file := credentials_file x;
     role_access := role_access x; denied := denied x;
     accepted_secret := accepted_secret x |}.

Definition with_buffers (x : world) (b : list (str * bytes)) : world :=
  {| objects := objects x; buffers := b; credentials_file := credentials_file x;
     role_access := role_access x; denied := denied x;
     accepted_secret := accepted_secret x |}.

(** [s] without its trailing slashes *)
Fixpoint rstrip_slash (s : str) : str :=
  match s with
  | EmptyString => EmptyString
  | String c r =>
      match rstrip_slash r with
      | EmptyString => if (c =? PyStr.slash)%char then EmptyString else String c EmptyString
      | r' => String c r'
      end
  end.

(** What follows the prefix [p] in [s], when [s] starts with [p]. *)
Definition after (p s : str) : option str :=
  if prefix p s then Some (substring (String.length p) (String.length s - String.length p) s)
  else None.

Definition bucket_of (k : str) : str :=
  match PyStr.split1 PyStr.slash k with Some (b, _) => b | None => k end.

Fixpoint dedup (seen : list str) (l : list str) : list str :=
  match l with
  | [] => []
  | x :: r =>
      if existsb (String.eqb x) seen then dedup seen r else x :: dedup (x :: seen) r
  end.

Definition buckets (x : world) : list str :=
  dedup [] (map (fun kv => bucket_of (fst kv)) (objects x)).

(** The entries directly under the directory [d]: the objects with one
    more path segment, and a directory for each deeper prefix. *)
Fixpoint children (d : str) (seen : list str) (l : list (str * bytes)) : list s3_entry :=
  match l with
  | [] => []
  | (k, _) :: r =>
      match after (d ++ "/")%string k with
      | None => children d seen r
      | Some rest =>
          match PyStr.split1 PyStr.slash rest with
          | None => {| Key := k; type_ := "file" |} :: children d seen r
          | Some (seg, _) =>
              if existsb (String.eqb seg) seen then children d seen r
              else {| Key := (d ++ "/" ++ seg)%string; type_ := "directory" |}
                   :: children d (seg :: seen) r
          end
      end
  end.

Definition not_found {A} (p : str) : M world A := raise (FileNotFoundError p).

Definition m_listdir (_ : credentials) (p : str) : M world (list s3_entry) :=
  fun x =>
    let d := rstrip_slash p in
    match d with
    | EmptyString =>
        (inr (map (fun b => {| Key := b; type_ := "directory" |}) (buckets x)), x)
    | _ =>
        match children d [] (objects x) with
        | [] =>
            match lookup (objects x) d with
            | Some _ => (inr [{| Key := d; type_ := "file" |}], x)
            | None => not_found d x
            end
        | l => (inr l, x)
        end
    end.

Definition has_children (d : str) (l : list (str * bytes)) : bool :=
  existsb (fun kv => prefix (d ++ "/")%string (fst kv)) l.

Definition m_exists (_ : credentials) (p : str) : M world bool :=
  fun x =>
    let d := rstrip_slash p in
    (inr (match lookup (objects x) d with
          | Some _ => true
          | None => has_children d (objects x)
          end), x).

Definition m_rm (_ : credentials) (p : str) : M world unit :=
  fun x =>
    match lookup (objects x) p with
    | Some _ => (inr tt, with_objects x (remove (objects x) p))
    | None => not_found p x
    end.

(** The objects under [src], renamed to lie under [dst]. *)
Fixpoint copies (src dst : str) (l : list (str * bytes)) : list (str * bytes) :=
  match l with
  | [] => []
  | (k, v) :: r =>
      match after (src ++ "/")%string k with
      | Some rest => ((dst ++ "/" ++ rest)%string, v) :: copies src dst r
      | None => copies src dst r
      end
  end.

Definition put_all (o new : list (str * bytes)) : list (str * bytes) :=
  fold_left (fun acc kv => put acc (fst kv) (snd kv)) new o.

Definition m_cp (_ : credentials) (src dst : str) (recursive : bool) : M world unit :=
  fun x =>
    match lookup (objects x) src with
    | Some v => (inr tt, with_objects x (put (objects x) dst v))
    | None =>
        match (if recursive then copies src dst (objects x) else []) with
        | [] => not_found src x
        | new => (inr tt, with_objects x (put_all (objects x) new))
        end
    end.

Definition under (src : str) (k : str) : bool :=
  (k =? src)%string || prefix (src ++ "/")%string k.

Definition m_move (fs : credentials) (src dst : str) (recursive : bool) : M world unit :=
  m_cp fs src dst recursive ;;
  fun x => (inr tt, with_objects x (filter (fun kv => negb (under src (fst kv))) (objects x))).

Definition m_mkdir (_ : credentials) (p : str) : M world unit := ret tt.

Definition m_touch (_ : credentials) (p : str) : M world unit :=
  fun x => (inr tt, with_objects x (put (objects x) p [])).

Definition m_delete_prefix (_ : credentials) (bucket prefix_ : str) : M world unit :=
  fun x =>
    (inr tt,
     with_objects x
       (filter (fun kv => negb (prefix (bucket ++ "/" ++ prefix_)%string (fst kv))) (objects x))).

Definition handle : Type := (str * mode)%type.

Definition m_open (_ : credentials) (p : str) (m : mode) : M world handle :=
  fun x =>
    match m with
    | rb =>
        match lookup (objects x) p with
        | Some _ => (inr (p, rb), x)
        | None => not_found p x
        end
    | w => (inr (p, w), with_buffers x (put (buffers x) p []))
    end.

Definition m_read (f : handle) : M world bytes :=
  fun x =>
    match snd f with
    | rb =>
        match lookup (objects x) (fst f) with
        | Some v => (inr v, x)
        | None => not_found (fst f) x
        end
    | w => (inl (OtherException "UnsupportedOperation" "not readable"), x)
    end.

Definition m_write (f : handle) (s : str) : M world unit :=
  fun x =>
    match snd f with
    | w =>
        match lookup (buffers x) (fst f) with
        | Some b => (inr tt, with_buffers x (put (buffers x) (fst f) (b ++ Utf8.encode s)))
        | None => (inl (ValueError "I/O operation on closed file."), x)
        end
    | rb => (inl (OtherException "UnsupportedOperation" "not writable"), x)
    end.

Definition m_close (f : handle) : M world unit :=
  fun x =>
    match snd f with
    | w =>
        match lookup (buffers x) (fst f) with
        | Some b =>
            (inr tt,
             with_buffers (with_objects x (put (objects x) (fst f) b))
               (remove (buffers x) (fst f)))
        | None => (inr tt, x)
        end
    | rb => (inr tt, x)
    end.

Definition m_list_buckets : M world (list str) :=
  fun x =>
    if role_access x then (inr (buckets x), x)
    else (inl (NoCredentialsError "Unable to locate credentials"), x).

Definition m_probe (b : str) : M world unit :=
  fun x =>
    if existsb (String.eqb b) (denied x)
    then (inl (ClientError "AccessDenied" "Access Denied"), x)
    else (inr tt, x).

Definition m_buckets_all (c : credentials) : M world (list str) :=
  fun x =>
    match c with
    | Ambient => m_list_buckets x
    | Explicit _ secret _ _ =>
        if (secret =? accepted_secret x)%string then (inr (buckets x), x)
        else (inl (ClientError "InvalidAccessKeyId" "The key does not exist"), x)
    end.

Definition env (loads : bytes -> exn + json) : Env :=
  {| W := world; FH := handle;
     invalidate_cache := fun _ => ret tt;
     open_ := m_open; read := m_read; write := m_write; close := m_close;
     listdir := m_listdir; cp := m_cp; move := m_move;
     mkdir := m_mkdir; touch := m_touch; exists_ := m_exists; rm := m_rm;
     bucket_objects_filter_delete := m_delete_prefix;
     list_buckets := m_list_buckets;
     list_objects_v2 := m_probe; head_bucket := m_probe;
     buckets_all := m_buckets_all;
     aws_credentials_file := fun x => (inr (credentials_file x), x);
     json_loads := loads |}.

Definition store (o : list (str * bytes)) : world :=
  {| objects := o; buffers := []; credentials_file := None;
     role_access := true; denied := []; accepted_secret := "secret" |}.

Definition fresh : Self := {| s3fs := None; s3_resource := None |}.

Definition ambient_config : Config :=
  {| endpoint_url := ""; client_id := ""; client_secret := ""; session_token := "" |}.

(** A decoder that knows the value of the JSON texts of a table and
    rejects every other body. *)
Fixpoint loads_table (table : list (bytes * json)) (b : bytes) : exn + json :=
  match table with
  | [] => inl (ValueError "Expecting value")
  | (text, j) :: r =>
      if (string_of_list_ascii text =? string_of_list_ascii b)%string then inr j
      else loads_table r b
  end.

Definition quote : ascii := "034"%char.

(** The JSON text of [{content: c}], in UTF-8, for a [c] that needs no
    escape. *)
Definition content_text (c : str) : bytes :=
  list_ascii_of_string "{" ++ [quote] ++ list_ascii_of_string "content" ++ [quote]
  ++ list_ascii_of_string ": " ++ [quote] ++ Utf8.encode c ++ [quote]
  ++ list_ascii_of_string "}".

Definition content_request (c : str) : Request :=
  {| headers := []; body := content_text c |}.

Definition env_for_content (c : str) : Env :=
  env (loads_table [(content_text c, JDict [("content", JStr c)])]).

(** A bucket [b] with a directory [d] that holds its marker and a file. *)
Definition hello : bytes := list_ascii_of_string "hello".

Definition example : world := store [("b/d/.keep", []); ("b/d/a.txt", hello)].

Definition plain_request : Request := {| headers := []; body := [] |}.

Definition request_with (h v : str) : Request := {| headers := [(h, v)]; body := [] |}.

(** The objects a handler left. *)
Definition objects_after (st : Self * world) : list (str * bytes) :=
  objects (snd st).

(** The store holds the object [b] at the key [p]. *)
Definition holds (x : world) (p : str) (b : bytes) : Prop :=
  lookup (objects x) p = Some b.

(** The store with a decoder that knows no text, and the configuration
    without explicit credentials. *)
Definition E0 : Env := env (loads_table []).

Definition cfg : Config := ambient_config.

(** A world with the credentials file [lines]. *)
Definition with_credentials (lines : list str) (role : bool) : world :=
  {| objects := [("b/a.txt", hello)]; buffers := [];
     credentials_file := Some lines; role_access := role;
     denied := []; accepted_secret := "secret" |}.

Definition newline : str := String "010"%char EmptyString.

(** A credentials file with a valid access key. *)
Definition valid_credentials : list str :=
  ["[default]" ++ newline; "aws_access_key_id = AKIAEXAMPLE" ++ newline]%string.

End Mem.

(** ** Vocabulary of the statements *)

Section Vocabulary.

Variable E : Env.

(** The [S3FileSystem] a handler method works with: the one the handler
    already holds, or the one [create_s3fs] makes. *)
Definition instance (self : Self) (config : Config) : credentials :=
  match s3fs self with Some fs => fs | None => create_s3fs config end.

Definition resource_instance (self : Self) (config : Config) : credentials :=
  match s3_resource self with Some r => r | None => create_s3_resource config end.

(** The handler once [self.s3fs] is set. *)
Definition with_s3fs (self : Self) (config : Config) : Self :=
  {| s3fs := Some (instance self config); s3_resource := s3_resource self |}.

(** The handler once both attributes are set. *)
Definition with_both (self : Self) (config : Config) : Self :=
  {| s3fs := Some (instance self config);
     s3_resource := Some (resource_instance self config) |}.

(** The lookup of a file ([open], [read], [close]) raises [e] and leaves
    the world [w']. *)
Inductive lookup_raises (fs : credentials) (p : str) (w0 : W E) (e : exn) (w' : W E) : Prop :=
| open_raises :
    open_ E fs p rb w0 = (inl e, w') -> lookup_raises fs p w0 e w'
| read_raises f w1 e0 w2 :
    open_ E fs p rb w0 = (inr f, w1) -> read E f w1 = (inl e0, w2) ->
    close E f w2 = (inr tt, w') -> e = e0 -> lookup_raises fs p w0 e w'
| close_raises_after_read_raised f w1 e0 w2 :
    open_ E fs p rb w0 = (inr f, w1) -> read E f w1 = (inl e0, w2) ->
    close E f w2 = (inl e, w') -> lookup_raises fs p w0 e w'
| close_raises f w1 content w2 :
    open_ E fs p rb w0 = (inr f, w1) -> read E f w1 = (inr content, w2) ->
    close E f w2 = (inl e, w') -> lookup_raises fs p w0 e w'.

(** What [get] does for a file raises [e] and leaves the world [w']: the
    cache refresh raises, or the lookup that follows it does. *)
Definition file_get_raises (fs : credentials) (p : str) (w0 : W E) (e : exn) (w' : W E) : Prop :=
  invalidate_cache E fs w0 = (inl e, w')
  \/ exists w1, invalidate_cache E fs w0 = (inr tt, w1) /\ lookup_raises fs p w1 e w'.

(** The lookup of a file returns [content] and leaves the world [w']. *)
Definition lookup_returns (fs : credentials) (p : str) (w0 : W E)
    (content : bytes) (w' : W E) : Prop :=
  exists f w1 w2,
    open_ E fs p rb w0 = (inr f, w1) /\ read E f w1 = (inr content, w2)
    /\ close E f w2 = (inr tt, w').

(** A PUT that reaches the plain write: no control header, a body. *)
Definition is_plain_write (request : Request) : Prop :=
  header (headers request) "X-Custom-S3-Copy-Src" = None
  /\ header (headers request) "X-Custom-S3-Move-Src" = None
  /\ has_header request "X-Custom-S3-Is-Dir" = false
  /\ body request <> [].

(** A PUT that reaches the mkdir branch. *)
Definition is_mkdir (request : Request) : Prop :=
  header (headers request) "X-Custom-S3-Copy-Src" = None
  /\ header (headers request) "X-Custom-S3-Move-Src" = None
  /\ has_header request "X-Custom-S3-Is-Dir" = true.

(** The path [put] makes a directory at. *)
Definition directory_path (p : str) : str :=
  if PyStr.endswith (PyStr.lower p) "/" then PyStr.lower p
  else (PyStr.lower p ++ "/")%string.

(** A listing that keeps [delete] from removing the directory [p]: more
    than one entry, or one entry that is neither [p] nor [p/]. *)
Definition blocks (p : str) (l : list s3_entry) : Prop :=
  1 < length l
  \/ exists o, l = [o] /\ Key o <> p /\ Key o <> (p ++ "/")%string.

(** Lines 299-302 of [delete] on the world: the marker [p/.keep] is
    looked for, removed when it is there, and the listing of [p/] that
    follows returns [l] and leaves the world [w']. *)
Inductive lists_after_marker (fs : credentials) (p : str) (w0 : W E)
    (l : list s3_entry) (w' : W E) : Prop :=
| marker_absent w1 :
    exists_ E fs (p ++ "/.keep")%string w0 = (inr false, w1) ->
    listdir E fs (p ++ "/")%string w1 = (inr l, w') ->
    lists_after_marker fs p w0 l w'
| marker_removed w1 w2 :
    exists_ E fs (p ++ "/.keep")%string w0 = (inr true, w1) ->
    rm E fs (p ++ "/.keep")%string w1 = (inr tt, w2) ->
    listdir E fs (p ++ "/")%string w2 = (inr l, w') ->
    lists_after_marker fs p w0 l w'.

(** Store operations that only look. *)
Record ReadOnly : Prop := {
  exists_looks : forall fs q x, snd (exists_ E fs q x) = x;
  listdir_looks : forall fs q x, snd (listdir E fs q x) = x
}.

(** A store that reads back what was written: a text file written and
    closed holds the UTF-8 encoding of the text, refreshing the cache
    does not lose it, and what the store holds can be read. *)
Record ReadsItsWrites (holds : W E -> str -> bytes -> Prop) : Prop := {
  write_holds : forall fs p c x0 f x1 x2 x3,
    open_ E fs p w x0 = (inr f, x1) -> write E f c x1 = (inr tt, x2) ->
    close E f x2 = (inr tt, x3) -> holds x3 p (Utf8.encode c);
  invalidate_keeps : forall fs x,
    exists x', invalidate_cache E fs x = (inr tt, x')
               /\ forall p b, holds x p b -> holds x' p b;
  holds_reads : forall fs p b x,
    holds x p b -> exists x', lookup_returns fs p x b x'
}.

(** A store whose [mkdir] and [touch] accept a directory that is there. *)
Definition AcceptsExisting : Prop :=
  forall fs d x x1 x2,
    mkdir E fs d x = (inr tt, x1) -> touch E fs (d ++ ".keep")%string x1 = (inr tt, x2) ->
    exists x3 x4,
      mkdir E fs d x2 = (inr tt, x3) /\ touch E fs (d ++ ".keep")%string x3 = (inr tt, x4).

(** A line of the credentials file with an access key that starts with
    neither prefix of a valid key. *)
Definition is_invalid_key_line (line : str) : bool :=
  PyStr.startswith line "aws_access_key_id"
  && match PyStr.split1 "="%char line with
     | Some (_, value) =>
         negb (PyStr.startswith (PyStr.strip value) "AKIA")
         && negb (PyStr.startswith (PyStr.strip value) "ASIA")
     | None => false
     end.

(** Every access-key line of the file has its [=]. *)
Definition well_formed_line (line : str) : bool :=
  negb (PyStr.startswith line "aws_access_key_id")
  || PyStr.contains "="%char line.

Definition skips_ambient (file : option (list str)) : bool :=
  match file with
  | Some lines => existsb is_invalid_key_line lines
  | None => false
  end.

Definition well_formed (file : option (list str)) : bool :=
  match file with
  | Some lines => forallb well_formed_line lines
  | None => true
  end.

(** A store entry that keeps its place in a listing: its key is not
    empty and does not end with the separator. *)
Definition has_name (r : s3_entry) : bool :=
  negb (Key r =? "")%string && negb (PyStr.endswith (Key r) "/").

(** The ambient attempt fails on the world [w0] and leaves [w']: it is
    skipped, or the listing of the accessible buckets raises. *)
Definition ambient_fails (file : option (list str)) (w0 w' : W E) : Prop :=
  (skips_ambient file = true /\ w' = w0)
  \/ (skips_ambient file = false
      /\ exists e, _test_aws_s3_role_access E w0 = (inl e, w')).

End Vocabulary.

Arguments lookup_raises [E] fs p w0 e w'.
Arguments open_raises [E] fs p w0 e w' _.
Arguments lookup_returns [E] fs p w0 content w'.
Arguments ambient_fails [E] file w0 w'.
Arguments lists_after_marker [E] fs p w0 l w'.
Arguments file_get_raises [E] fs p w0 e w'.
Arguments blocks p l : assert.
Arguments ReadOnly E : assert.
Arguments ReadsItsWrites E holds : assert.
Arguments AcceptsExisting E : assert.

(** ** Vocabulary of the further statements *)

(** [l1] is [l2] with some elements left out, the others in their order. *)
Inductive subsequence {A : Type} : list A -> list A -> Prop :=
| subsequence_nil : subsequence [] []
| subsequence_skip x l1 l2 : subsequence l1 l2 -> subsequence l1 (x :: l2)
| subsequence_keep x l1 l2 : subsequence l1 l2 -> subsequence (x :: l1) (x :: l2).

Section FurtherVocabulary.

Variable E : Env.

(** The probe of lines 53-55 on the bucket [b] returns. *)
Definition probe_returns (b : str) (x : W E) : bool :=
  match fst (list_objects_v2 E b x) with
  | inr _ => true
  | inl _ => false
  end.

(** The exception is the one line 61 swallows. *)
Definition is_access_denied (e : exn) : bool :=
  match e with
  | ClientError code _ => (code =? "AccessDenied")%string
  | _ => false
  end.

(** The probe of the bucket [b] raises the [ClientError] that line 61
    swallows. *)
Definition probe_denied (b : str) (x : W E) : bool :=
  match fst (list_objects_v2 E b x) with
  | inr _ => false
  | inl e => is_access_denied e
  end.

(** A computation of a handler method that leaves the handler as it is. *)
Definition keeps_self {A} (m : M (St E) A) : Prop :=
  forall st, fst (snd (m st)) = fst st.

(** The JSON value is one entry [{name, path, type}] made from the store
    entry [r], with a name that is not empty and has no [/]. *)
Definition is_entry_of (r : s3_entry) (j : json) : Prop :=
  exists n,
    j = JDict [("name", JStr n); ("path", JStr (Key r)); ("type", JStr (type_ r))]
    /\ n <> EmptyString
    /\ PyStr.contains PyStr.slash n = false
    /\ PyStr.endswith (Key r) n = true.

(** An access-key line of the credentials file that has no [=]. *)
Definition is_malformed_key_line (line : str) : bool :=
  PyStr.startswith line "aws_access_key_id" && negb (PyStr.contains "="%char line).

(** A computation of a handler method whose result, when it returns, has
    no [error] field. *)
Definition returns_no_error (m : M (St E) json) : Prop :=
  forall st r st', m st = (inr r, st') -> PyDict.field r "error" = None.

(** What lines 261-265 raise on the decoded body [request] before anything
    is written: the exception of [request["content"]], or the [TypeError]
    of [f.write] on a content that is not a [str]. *)
Definition content_error (request : json) : option exn :=
  match subscript request "content" with
  | inl e => Some e
  | inr (JStr _) => None
  | inr v => Some (write_type_error v)
  end.

End FurtherVocabulary.

Arguments probe_returns [E] b x.
Arguments probe_denied [E] b x.
Arguments keeps_self [E A] m.
Arguments returns_no_error [E] m.

(** Worlds and requests of the in-memory store used below. *)

Module Worlds.

(** Two buckets, of which [c] answers AccessDenied. *)
Definition two_buckets : Mem.world :=
  {| Mem.objects := [("b/a.txt", Mem.hello); ("c/secret.txt", Mem.hello)];
     Mem.buffers := []; Mem.credentials_file := None; Mem.role_access := true;
     Mem.denied := ["c"]; Mem.accepted_secret := "secret" |}.

(** The JSON text [{}] and a decoder that knows it. *)
Definition empty_object_text : bytes := list_ascii_of_string "{}".

Definition env_for_empty_object : Env :=
  Mem.env (Mem.loads_table [(empty_object_text, JDict [])]).

Definition empty_object_request : Request :=
  {| headers := []; body := empty_object_text |}.

(** The JSON text of [{content: 5}] and a decoder that knows it. *)
Definition integer_content_text : bytes :=
  list_ascii_of_string "{" ++ [Mem.quote] ++ list_ascii_of_string "content"
  ++ [Mem.quote] ++ list_ascii_of_string ": 5}".

Definition env_for_integer_content : Env :=
  Mem.env (Mem.loads_table [(integer_content_text, JDict [("content", JInt 5)])]).

Definition integer_content_request : Request :=
  {| headers := []; body := integer_content_text |}.

End Worlds.

(** ** Properties of the Python string and base64 primitives *)

Module PyStrFacts.
Import PyStr.

Lemma endswith_cons c r suf :
  endswith (String c r) suf = (String c r =? suf) || endswith r suf.
Proof. reflexivity. Qed.

Lemma rsplit_last_no_sep c s : contains c s = false -> rsplit_last c s = s.
Proof.
  destruct s as [|d r]; [reflexivity|]; simpl.
  destruct (Ascii.eqb_spec d c); simpl; [discriminate|].
  intros ->. reflexivity.
Qed.

Lemma endswith_sep_contains c s :
  endswith s (String c EmptyString) = true -> contains c s = true.
Proof.
  induction s as [|d r IH]; [discriminate|].
  rewrite endswith_cons. cbn [contains].
  intros H. apply orb_true_iff in H. destruct H as [H|H].
  - apply String.eqb_eq in H. injection H as -> ->.
    rewrite Ascii.eqb_refl. reflexivity.
  - rewrite (IH H). apply orb_true_r.
Qed.

(** The name derived from a key is empty exactly for the empty key and for
    a key that ends with the separator. *)
Lemma rsplit_last_empty c s :
  rsplit_last c s = EmptyString <->
  s = EmptyString \/ endswith s (String c EmptyString) = true.
Proof.
  induction s as [|d r IH].
  - simpl. tauto.
  - rewrite endswith_cons. simpl rsplit_last.
    destruct (contains c r) eqn:Hc.
    + rewrite IH. split.
      * intros [->|H]; [discriminate Hc|]. right. rewrite H. apply orb_true_r.
      * intros [H|H]; [discriminate H|].
        apply orb_true_iff in H. destruct H as [H|H]; [|now right].
        apply String.eqb_eq in H. injection H as -> ->. discriminate Hc.
    + destruct (Ascii.eqb_spec d c) as [->|Hd].
      * split.
        -- intros ->. right. rewrite String.eqb_refl. reflexivity.
        -- intros [H|H]; [discriminate H|].
           apply orb_true_iff in H. destruct H as [H|H].
           ++ apply String.eqb_eq in H. now injection H.
           ++ apply endswith_sep_contains in H. congruence.
      * split; [discriminate|].
        intros [H|H]; [discriminate H|].
        apply orb_true_iff in H. destruct H as [H|H].
        -- apply String.eqb_eq in H. injection H as H _. contradiction.
        -- apply endswith_sep_contains in H. congruence.
Qed.

Lemma rsplit_last_has_no_sep c s : contains c (rsplit_last c s) = false.
Proof.
  induction s as [|d r IH]; [reflexivity|]. simpl.
  destruct (contains c r) eqn:Hc; [exact IH|].
  destruct (Ascii.eqb_spec d c); [exact Hc|].
  simpl. rewrite Hc. destruct (Ascii.eqb_spec d c); [contradiction|reflexivity].
Qed.

Lemma endswith_append s suf : endswith (s ++ suf)%string suf = true.
Proof.
  induction s as [|c r IH].
  - destruct suf; cbn [append endswith]; rewrite String.eqb_refl; reflexivity.
  - cbn [append]. rewrite endswith_cons, IH. apply orb_true_r.
Qed.

Lemma lower_char_idem c : lower_char (lower_char c) = lower_char c.
Proof.
  destruct c as [[] [] [] [] [] [] [] []]; reflexivity.
Qed.

Lemma lower_idem s : lower (lower s) = lower s.
Proof.
  induction s as [|c r IH]; simpl; [reflexivity|].
  now rewrite lower_char_idem, IH.
Qed.

Lemma lower_append s t : lower (s ++ t)%string = (lower s ++ lower t)%string.
Proof. induction s as [|c r IH]; simpl; [reflexivity|now rewrite IH]. Qed.

End PyStrFacts.

Module Base64Facts.
Import Base64.

Lemma a2b_b2a (x : sextet) : a2b (b2a x) = Some x.
Proof.
  destruct x as [[[[[[] []] []] []] []] []]; reflexivity.
Qed.

Lemma significant_b2a (x : sextet) : significant (b2a x) = true.
Proof. unfold significant. now rewrite a2b_b2a. Qed.

Lemma a2b_pad : a2b pad = None.
Proof. reflexivity. Qed.

Lemma significant_pad : significant pad = true.
Proof. reflexivity. Qed.

Lemma significant_newline : significant newline = false.
Proof. reflexivity. Qed.

Lemma d1_q a b : d1 (q1 a) (q2 a b) = a.
Proof. destruct a, b; reflexivity. Qed.

Lemma d2_q a b c : d2 (q2 a b) (q3 b c) = b.
Proof. destruct a, b, c; reflexivity. Qed.

Lemma d3_q b c : d3 (q3 b c) (q4 c) = c.
Proof. destruct b, c; reflexivity. Qed.

(** Induction on a byte string three bytes at a time. *)
Lemma bytes_ind3 (P : list ascii -> Prop) :
  P [] -> (forall a, P [a]) -> (forall a b, P [a; b]) ->
  (forall a b c r, P r -> P (a :: b :: c :: r)) ->
  forall s, P s.
Proof.
  intros H0 H1 H2 H3.
  assert (H : forall s, P s /\ (forall a, P (a :: s)) /\ (forall a b, P (a :: b :: s))).
  { induction s as [|c r (IHa & IHb & IHc)].
    - repeat split; auto.
    - repeat split; auto. }
  intros s. apply H.
Qed.

Lemma filter_b2a_groups (s : list ascii) : filter significant (b2a_groups s) = b2a_groups s.
Proof.
  induction s as [|a|a b|a b c r IH] using bytes_ind3.
  - reflexivity.
  - cbn [b2a_groups filter].
    now rewrite !significant_b2a, significant_pad.
  - cbn [b2a_groups filter].
    now rewrite !significant_b2a, significant_pad.
  - cbn [b2a_groups filter]. now rewrite !significant_b2a, IH.
Qed.

Lemma decode_quads_groups (s : list ascii) : decode_quads (b2a_groups s) = s.
Proof.
  induction s as [|a|a b|a b c r IH] using bytes_ind3.
  - reflexivity.
  - cbn [b2a_groups decode_quads].
    now rewrite !a2b_b2a, a2b_pad, d1_q.
  - cbn [b2a_groups decode_quads].
    now rewrite !a2b_b2a, a2b_pad, d1_q, d2_q.
  - cbn [b2a_groups decode_quads].
    now rewrite !a2b_b2a, d1_q, d2_q, d3_q, IH.
Qed.

(** A chunk whose length is a multiple of three encodes without padding,
    and decoding goes on after it. *)
Lemma decode_quads_full (s t : list ascii) :
  Nat.divide 3 (length s) ->
  decode_quads (b2a_groups s ++ t) = s ++ decode_quads t.
Proof.
  induction s as [|a|a b|a b c r IH] using bytes_ind3; intros [k Hk].
  - reflexivity.
  - simpl in Hk. lia.
  - simpl in Hk. lia.
  - cbn [b2a_groups decode_quads app].
    rewrite !a2b_b2a, d1_q, d2_q, d3_q, IH; [reflexivity|].
    exists (k - 1). simpl in Hk. lia.
Qed.

Lemma chunks_from_nil fuel n : chunks_from fuel n [] = [].
Proof. destruct fuel; reflexivity. Qed.

Lemma decode_cons_chunk c cs :
  decode (concat (map b2a_base64 (c :: cs)))
  = decode_quads (b2a_groups c ++ filter significant (concat (map b2a_base64 cs))).
Proof.
  unfold decode. cbn [map concat]. unfold b2a_base64 at 1.
  rewrite !filter_app, filter_b2a_groups. cbn [filter].
  rewrite significant_newline, app_nil_r. reflexivity.
Qed.

Lemma decode_chunks fuel s :
  length s <= fuel ->
  decode (concat (map b2a_base64 (chunks_from fuel MAXBINSIZE s))) = s.
Proof.
  revert s. induction fuel as [|fuel IH]; intros s Hlen.
  - destruct s; [reflexivity|simpl in Hlen; lia].
  - destruct s as [|a s']; [reflexivity|].
    set (s := a :: s') in *.
    assert (Hs : chunks_from (S fuel) MAXBINSIZE s
                 = firstn MAXBINSIZE s :: chunks_from fuel MAXBINSIZE (skipn MAXBINSIZE s))
      by reflexivity.
    rewrite Hs, decode_cons_chunk.
    destruct (Nat.le_gt_cases (length s) MAXBINSIZE) as [Hle|Hgt].
    + rewrite (firstn_all2 s Hle), (skipn_all2 s Hle), chunks_from_nil.
      cbn [map concat filter]. rewrite app_nil_r. apply decode_quads_groups.
    + assert (Hrest : length (skipn MAXBINSIZE s) <= fuel).
      { rewrite length_skipn. unfold MAXBINSIZE in *.
        subst s. cbn [length] in *. lia. }
      specialize (IH _ Hrest). unfold decode in IH.
      rewrite decode_quads_full, IH; [apply firstn_skipn|].
      rewrite length_firstn, Nat.min_l by lia.
      exists 19. reflexivity.
Qed.

(** Decoding what [encodebytes] produced gives the bytes back. *)
Lemma decode_encodebytes s : decode (encodebytes s) = s.
Proof. unfold encodebytes, chunks. now apply decode_chunks. Qed.

(** [encodebytes] produces only alphabet characters, padding and
    newlines, so [.decode("ascii")] cannot fail on it. *)
Lemma encodebytes_empty : encodebytes [] = [].
Proof. reflexivity. Qed.

End Base64Facts.

Module Utf8Facts.
Import Utf8.

Lemma encode_ascii s : is_ascii s = true -> encode s = list_ascii_of_string s.
Proof.
  induction s as [|c r IH]; [reflexivity|].
  destruct c as [c0 c1 c2 c3 c4 c5 c6 c7]. cbn [is_ascii].
  intros H. apply andb_true_iff in H. destruct H as [H7 Hr].
  destruct c7; [discriminate|]. cbn [encode encode_char list_ascii_of_string app].
  now rewrite IH.
Qed.

End Utf8Facts.

(** ** The handlers *)

Section HandlerFacts.

Variable E : Env.

Lemma bind_returns {S A B} (m : M S A) (k : A -> M S B) s a s' :
  m s = (inr a, s') -> bind m k s = k a s'.
Proof. unfold bind. now intros ->. Qed.

Lemma bind_raises {S A B} (m : M S A) (k : A -> M S B) s e s' :
  m s = (inl e, s') -> bind m k s = (inl e, s').
Proof. unfold bind. now intros ->. Qed.

Lemma call_returns {A} (m : M (W E) A) self (x : W E) r x' :
  m x = (r, x') -> call m (self, x) = (r, (self, x')).
Proof. unfold call. cbn [fst snd]. now intros ->. Qed.

Lemma get_s3fs_runs config self (x : W E) :
  get_s3fs (E := E) config (self, x)
  = (inr (instance self config), (with_s3fs self config, x)).
Proof.
  unfold get_s3fs, instance, with_s3fs, instance. cbn [fst snd].
  destruct self as [[fs|] r]; reflexivity.
Qed.

Lemma get_s3_resource_runs config self (x : W E) :
  get_s3_resource (E := E) config (with_s3fs self config, x)
  = (inr (resource_instance self config), (with_both self config, x)).
Proof.
  unfold get_s3_resource, resource_instance, with_both, with_s3fs. cbn [fst snd s3_resource s3fs].
  destruct self as [fs [r|]]; reflexivity.
Qed.

Lemma instance_with_s3fs self config :
  instance (with_s3fs self config) config = instance self config.
Proof. reflexivity. Qed.

(** The four ways the lookup of a file ends. *)
Lemma read_back_raises fs p self (x : W E) e x' :
  lookup_raises fs p x e x' ->
  read_back fs p (self, x) = (inl e, (self, x')).
Proof.
  unfold read_back, with_open.
  intros [Ho|f x1 e0 x2 Ho Hr Hc ->|f x1 e0 x2 Ho Hr Hc|f x1 b x2 Ho Hr Hc].
  - now rewrite (bind_raises _ _ _ (call_returns _ self _ Ho)).
  - rewrite (bind_returns _ _ _ (call_returns _ self _ Ho)).
    rewrite (bind_raises _ _ _ (call_returns _ self _ Hr)).
    now rewrite (call_returns _ self _ Hc).
  - rewrite (bind_returns _ _ _ (call_returns _ self _ Ho)).
    rewrite (bind_raises _ _ _ (call_returns _ self _ Hr)).
    now rewrite (call_returns _ self _ Hc).
  - rewrite (bind_returns _ _ _ (call_returns _ self _ Ho)).
    rewrite (bind_returns _ _ _ (call_returns _ self _ Hr)).
    unfold ret. now rewrite (call_returns _ self _ Hc).
Qed.

Lemma read_back_returns fs p self (x : W E) content x' :
  lookup_returns fs p x content x' ->
  read_back fs p (self, x) = (inr (file_result p (b64 content)), (self, x')).
Proof.
  unfold read_back, with_open. intros (f & x1 & x2 & Ho & Hr & Hc).
  rewrite (bind_returns _ _ _ (call_returns _ self _ Ho)).
  rewrite (bind_returns _ _ _ (call_returns _ self _ Hr)).
  unfold ret. now rewrite (call_returns _ self _ Hc).
Qed.

(** The lookup ends in one of the five ways. *)
Lemma lookup_cases fs p (x : W E) :
  (exists content x', lookup_returns (E := E) fs p x content x')
  \/ (exists e x', lookup_raises (E := E) fs p x e x').
Proof.
  destruct (open_ E fs p rb x) as [[e|f] x1] eqn:Ho.
  - right. exists e, x1. now apply open_raises.
  - destruct (read E f x1) as [[e|b] x2] eqn:Hr;
      destruct (close E f x2) as [[e'|[]] x3] eqn:Hc.
    + right. exists e', x3. eapply close_raises_after_read_raised; eauto.
    + right. exists e, x3. eapply read_raises; eauto.
    + right. exists e', x3. eapply close_raises; eauto.
    + left. exists b, x3, f, x1, x2. auto.
Qed.

Lemma file_result_eq p c :
  file_result p c = JDict [("path", JStr p); ("type", JStr "file"); ("content", JStr c)].
Proof. reflexivity. Qed.

Lemma json_of_entry_eq x :
  json_of_entry x
  = JDict [("name", JStr (name x)); ("path", JStr (path x)); ("type", JStr (jtype x))].
Proof. reflexivity. Qed.

Lemma is_file_request_iff request p :
  is_file_request request p = false <->
  p = EmptyString \/ PyStr.endswith p "/" = true
  \/ has_header request "X-Custom-S3-Is-Dir" = true.
Proof.
  unfold is_file_request.
  destruct p as [|c r]; cbn [PyStr.truthy andb].
  - tauto.
  - destruct (PyStr.endswith (String c r) "/"), (has_header request "X-Custom-S3-Is-Dir");
      cbn; intuition discriminate.
Qed.

(** Filtering the converted entries on their name is filtering the store
    entries on their key: the empty key and the keys that end with the
    separator go. *)
Lemma name_nonempty_iff r :
  negb (name (convertS3FStoJupyterFormat r) =? "")%string = has_name r.
Proof.
  unfold has_name, convertS3FStoJupyterFormat. cbn [name].
  pose proof (PyStrFacts.rsplit_last_empty PyStr.slash (Key r)) as H.
  change (String PyStr.slash EmptyString) with "/" in H.
  destruct (String.eqb_spec (PyStr.rsplit_last PyStr.slash (Key r)) "") as [Hn|Hn];
    destruct (String.eqb_spec (Key r) "") as [Hk|Hk];
    destruct (PyStr.endswith (Key r) "/") eqn:He; cbn; try reflexivity.
  - apply H in Hn. destruct Hn; congruence.
  - exfalso. apply Hn, H. now left.
  - exfalso. apply Hn, H. now left.
  - exfalso. apply Hn, H. now right.
Qed.

Lemma listing_result_eq raw :
  listing_result raw
  = JList (map (fun r => json_of_entry (convertS3FStoJupyterFormat r))
             (filter has_name raw)).
Proof.
  unfold listing_result. f_equal.
  induction raw as [|r raw IH]; [reflexivity|].
  cbn [map filter]. rewrite name_nonempty_iff.
  destruct (has_name r); cbn [map]; now rewrite IH.
Qed.


(** *** [S3Handler.get] *)

Lemma get_try_file config request p self (x x1 : W E) :
  is_file_request request p = true ->
  invalidate_cache E (instance self config) x = (inr tt, x1) ->
  get_try config request p (self, x)
  = read_back (instance self config) p (with_s3fs self config, x1).
Proof.
  intros Hf Hi. unfold get_try.
  rewrite (bind_returns _ _ _ (get_s3fs_runs config self x)).
  rewrite (bind_returns _ _ _ (call_returns _ _ _ Hi)).
  now rewrite Hf.
Qed.

Lemma get_try_listing config request p self (x x1 : W E) :
  is_file_request request p = false ->
  invalidate_cache E (instance self config) x = (inr tt, x1) ->
  get_try config request p (self, x)
  = (raw <- call (listdir E (instance self config) p) ;; ret (listing_result raw))
      (with_s3fs self config, x1).
Proof.
  intros Hf Hi. unfold get_try.
  rewrite (bind_returns _ _ _ (get_s3fs_runs config self x)).
  rewrite (bind_returns _ _ _ (call_returns _ _ _ Hi)).
  now rewrite Hf.
Qed.

Lemma get_try_file_raises config request p self (x x' : W E) e :
  is_file_request request p = true ->
  file_get_raises (instance self config) p x e x' ->
  get_try config request p (self, x) = (inl e, (with_s3fs self config, x')).
Proof.
  intros Hf [Hi|(x1 & Hi & Hl)].
  - unfold get_try.
    rewrite (bind_returns _ _ _ (get_s3fs_runs config self x)).
    now rewrite (bind_raises _ _ _ (call_returns _ _ _ Hi)).
  - erewrite get_try_file by eassumption. now apply read_back_raises.
Qed.

Lemma listing_result_names raw :
  listing_result raw
  = JList
      (map (fun r =>
              JDict [("name", JStr (PyStr.rsplit_last PyStr.slash (Key r)));
                     ("path", JStr (Key r)); ("type", JStr (type_ r))])
         (filter (fun r => negb (PyStr.rsplit_last PyStr.slash (Key r) =? "")%string)
            raw)).
Proof.
  rewrite listing_result_eq. f_equal.
  induction raw as [|r raw IH]; [reflexivity|].
  cbn [filter]. rewrite <- name_nonempty_iff.
  cbn [name convertS3FStoJupyterFormat].
  destruct (negb (PyStr.rsplit_last PyStr.slash (Key r) =? "")%string);
    cbn [map]; now rewrite IH.
Qed.

(** The except clauses of lines 207-214 on a GET of a file path: the 404
    object for the exception class of the handlers,
    [S3ResourceNotFoundException], and for an exception of any other class
    the 500 object that carries the exception's message. *)
Theorem get_file_error_response config request p self (x x' : W E) e :
  is_file_request request p = true ->
  file_get_raises (instance self config) p x e x' ->
  get config request p (self, x)
  = (match e with
     | S3ResourceNotFoundException _ =>
         JDict [("error", JInt 404);
                ("message", JStr "The requested resource could not be found.")]
     | _ => JDict [("error", JInt 500); ("message", JStr (str_of_exn e))]
     end,
     (with_s3fs self config, x')).
Proof.
  intros Hf Hr. unfold get.
  erewrite get_try_file_raises by eassumption.
  destruct e; reflexivity.
Qed.

(** C2 (the code misses it). A GET of a file path whose lookup fails with
    the not-found exception of the store client, [FileNotFoundError],
    answers the 500 object with the message of the exception and not the
    404 object: the clause of line 207 catches only
    [S3ResourceNotFoundException], a class that is defined in handlers.py
    and raised nowhere. *)
Theorem get_not_found_answers_500 config request p self (x x' : W E) msg :
  is_file_request request p = true ->
  file_get_raises (instance self config) p x (FileNotFoundError msg) x' ->
  get config request p (self, x)
  = (JDict [("error", JInt 500); ("message", JStr msg)], (with_s3fs self config, x'))
  /\ fst (get config request p (self, x))
     <> JDict [("error", JInt 404);
               ("message", JStr "The requested resource could not be found.")].
Proof.
  intros Hf Hr. unfold get.
  erewrite get_try_file_raises by eassumption.
  split; [reflexivity|discriminate].
Qed.

(** C6. A GET whose path is empty, or ends with [/], or that carries the
    directory-hint header, answers the store listing as entries
    [{name, path, type}], in the order of the store, without the entries
    whose name (what follows the last [/] of the key) is empty; any other
    GET answers [{path, type: file, content}] with the whole object body
    in base64. *)
Theorem get_response config request p self (x x1 : W E) :
  invalidate_cache E (instance self config) x = (inr tt, x1) ->
  ((p = EmptyString \/ PyStr.endswith p "/" = true
    \/ has_header request "X-Custom-S3-Is-Dir" = true) ->
   forall raw x',
     listdir E (instance self config) p x1 = (inr raw, x') ->
     get config request p (self, x)
     = (JList
          (map (fun r =>
                  JDict [("name", JStr (PyStr.rsplit_last PyStr.slash (Key r)));
                         ("path", JStr (Key r)); ("type", JStr (type_ r))])
             (filter (fun r => negb (PyStr.rsplit_last PyStr.slash (Key r) =? "")%string)
                raw)),
        (with_s3fs self config, x')))
  /\ (~ (p = EmptyString \/ PyStr.endswith p "/" = true
         \/ has_header request "X-Custom-S3-Is-Dir" = true) ->
      forall content x',
        lookup_returns (instance self config) p x1 content x' ->
        get config request p (self, x)
        = (JDict [("path", JStr p); ("type", JStr "file");
                  ("content", JStr (string_of_list_ascii (Base64.encodebytes content)))],
           (with_s3fs self config, x'))).
Proof.
  intros Hi. split.
  - intros Hd raw x' Hl. apply is_file_request_iff in Hd.
    unfold get. erewrite get_try_listing by eassumption.
    rewrite (bind_returns _ _ _ (call_returns _ _ _ Hl)).
    unfold ret. now rewrite listing_result_names.
  - intros Hd content x' Hl.
    assert (Hf : is_file_request request p = true).
    { destruct (is_file_request request p) eqn:Hf; [reflexivity|].
      exfalso. now apply Hd, is_file_request_iff. }
    unfold get. erewrite get_try_file by eassumption.
    now erewrite read_back_returns by eassumption.
Qed.


(** *** [S3Handler.put] *)

Lemma bind_inr_inv {S A B} (m : M S A) (k : A -> M S B) s b s' :
  bind m k s = (inr b, s') ->
  exists a s1, m s = (inr a, s1) /\ k a s1 = (inr b, s').
Proof.
  unfold bind. destruct (m s) as [[e|a] s1]; [discriminate|].
  intros H. now exists a, s1.
Qed.

Lemma put_try_copy config request p source self (x : W E) :
  header (headers request) "X-Custom-S3-Copy-Src" = Some source ->
  put_try config request p (self, x)
  = put_copy (instance self config) p source (with_s3fs self config, x).
Proof.
  intros H. unfold put_try.
  rewrite (bind_returns _ _ _ (get_s3fs_runs config self x)).
  now rewrite H.
Qed.

Lemma put_try_move config request p source self (x : W E) :
  header (headers request) "X-Custom-S3-Copy-Src" = None ->
  header (headers request) "X-Custom-S3-Move-Src" = Some source ->
  put_try config request p (self, x)
  = put_move (instance self config) p source (with_s3fs self config, x).
Proof.
  intros Hc Hm. unfold put_try.
  rewrite (bind_returns _ _ _ (get_s3fs_runs config self x)).
  now rewrite Hc, Hm.
Qed.

Lemma put_try_mkdir config request p self (x : W E) :
  is_mkdir request ->
  put_try config request p (self, x)
  = put_mkdir (instance self config) p (with_s3fs self config, x).
Proof.
  intros (Hc & Hm & Hd). unfold put_try.
  rewrite (bind_returns _ _ _ (get_s3fs_runs config self x)).
  now rewrite Hc, Hm, Hd.
Qed.

Lemma put_try_write config request p self (x : W E) :
  is_plain_write request ->
  put_try config request p (self, x)
  = put_write (instance self config) request p (with_s3fs self config, x).
Proof.
  intros (Hc & Hm & Hd & Hb). unfold put_try.
  rewrite (bind_returns _ _ _ (get_s3fs_runs config self x)).
  rewrite Hc, Hm, Hd. destruct (body request); [contradiction|reflexivity].
Qed.

Lemma put_mkdir_path fs p :
  put_mkdir (E := E) fs p
  = (call (mkdir E fs (directory_path p)) ;;
     call (touch E fs (directory_path p ++ ".keep")%string) ;;
     ret (PyDict.literal [])).
Proof.
  unfold put_mkdir, directory_path.
  now destruct (PyStr.endswith (PyStr.lower p) "/").
Qed.

Lemma directory_path_normal p :
  (PyStr.endswith (PyStr.lower p) "/" = true -> directory_path p = PyStr.lower p)
  /\ (PyStr.endswith (PyStr.lower p) "/" = false ->
      directory_path p = (PyStr.lower p ++ "/")%string)
  /\ PyStr.endswith (directory_path p) "/" = true
  /\ PyStr.lower (directory_path p) = directory_path p.
Proof.
  unfold directory_path.
  destruct (PyStr.endswith (PyStr.lower p) "/") eqn:He; repeat split;
    try discriminate; try reflexivity.
  - exact He.
  - apply PyStrFacts.lower_idem.
  - apply PyStrFacts.endswith_append.
  - now rewrite PyStrFacts.lower_append, PyStrFacts.lower_idem.
Qed.

(** C7. A PUT with the copy-source header copies to [p/.keep] instead of
    [p] when the source has no [/], copies with [recursive=True], and
    answers the content read back from the object it copied to. *)
Theorem put_copy_response config request p source self (x x1 x' : W E) content :
  header (headers request) "X-Custom-S3-Copy-Src" = Some source ->
  let target :=
    if PyStr.contains PyStr.slash source then p else (p ++ "/.keep")%string in
  cp E (instance self config) source target true x = (inr tt, x1) ->
  lookup_returns (instance self config) target x1 content x' ->
  put config request p (self, x)
  = (JDict [("path", JStr target); ("type", JStr "file");
            ("content", JStr (string_of_list_ascii (Base64.encodebytes content)))],
     (with_s3fs self config, x')).
Proof.
  intros Hh target Hcp Hl. unfold put.
  erewrite put_try_copy by eassumption. unfold put_copy.
  replace (if negb (PyStr.contains PyStr.slash source) then (p ++ "/.keep")%string else p)
    with target by (subst target; now destruct (PyStr.contains PyStr.slash source)).
  rewrite (bind_returns _ _ _ (call_returns _ _ _ Hcp)).
  now erewrite read_back_returns by eassumption.
Qed.

(** C10. A PUT with the move-source header (and no copy-source header)
    moves from the source to the path as it was given, with
    [recursive=True], also when the source has no [/], and answers the
    content read back from that same path: no [.keep] path is put in
    its place. *)
Theorem put_move_response config request p source self (x x1 x' : W E) content :
  header (headers request) "X-Custom-S3-Copy-Src" = None ->
  header (headers request) "X-Custom-S3-Move-Src" = Some source ->
  move E (instance self config) source p true x = (inr tt, x1) ->
  lookup_returns (instance self config) p x1 content x' ->
  put config request p (self, x)
  = (JDict [("path", JStr p); ("type", JStr "file");
            ("content", JStr (string_of_list_ascii (Base64.encodebytes content)))],
     (with_s3fs self config, x')).
Proof.
  intros Hc Hm Hmv Hl. unfold put.
  erewrite put_try_move by eassumption. unfold put_move.
  rewrite (bind_returns _ _ _ (call_returns _ _ _ Hmv)).
  now erewrite read_back_returns by eassumption.
Qed.

Lemma put_mkdir_returns fs p self (x x1 x2 : W E) :
  mkdir E fs (directory_path p) x = (inr tt, x1) ->
  touch E fs (directory_path p ++ ".keep")%string x1 = (inr tt, x2) ->
  put_mkdir fs p (self, x) = (inr (JDict []), (self, x2)).
Proof.
  intros Hm Ht. rewrite put_mkdir_path.
  rewrite (bind_returns _ _ _ (call_returns _ _ _ Hm)).
  now rewrite (bind_returns _ _ _ (call_returns _ _ _ Ht)).
Qed.


(** *** [S3Handler.delete] *)

Lemma remove_marker_and_list_returns fs p self (x x' : W E) l :
  lists_after_marker fs p x l x' ->
  remove_marker_and_list fs p (self, x) = (inr l, (self, x')).
Proof.
  unfold remove_marker_and_list. intros [x1 He Hl|x1 x2 He Hr Hl].
  - rewrite (bind_returns _ _ _ (call_returns _ _ _ He)).
    unfold ret at 1. unfold bind at 1.
    now rewrite (call_returns _ _ _ Hl).
  - rewrite (bind_returns _ _ _ (call_returns _ _ _ He)).
    rewrite (bind_returns _ _ _ (call_returns _ _ _ Hr)).
    now rewrite (call_returns _ _ _ Hl).
Qed.

Lemma delete_try_listed config p self (x x' : W E) l :
  lists_after_marker (instance self config) p x l x' ->
  delete_try config p (self, x)
  = ((if is_directory p l
      then
        if is_not_empty p l
        then raise (DirectoryNotEmptyException "")
        else remove_directory (instance self config) (resource_instance self config) p
      else call (rm E (instance self config) p)) ;;
     ret (PyDict.literal [])) (with_both self config, x').
Proof.
  intros Hl. unfold delete_try.
  rewrite (bind_returns _ _ _ (get_s3fs_runs config self x)).
  rewrite (bind_returns _ _ _ (get_s3_resource_runs config self x)).
  now rewrite (bind_returns _ _ _ (remove_marker_and_list_returns _ Hl)).
Qed.

Lemma is_directory_iff p l :
  is_directory p l = true <-> (1 < length l \/ exists o, l = [o] /\ Key o <> p).
Proof.
  unfold is_directory. destruct l as [|o [|o' l]]; cbn [length Nat.ltb Nat.leb orb].
  - split; [discriminate|]. intros [H|(o & H & _)]; [lia|discriminate].
  - destruct (String.eqb_spec (Key o) p) as [Hk|Hk]; cbn [negb].
    + split; [discriminate|]. intros [H|(o' & H & Hn)]; [lia|].
      injection H as <-. contradiction.
    + split; [|reflexivity]. intros _. right. now exists o.
  - split; [|reflexivity]. intros _. left. lia.
Qed.

(** A directory passes the check of lines 309-312 exactly when its
    listing is the one entry [p/]. *)
Lemma is_not_empty_iff p l :
  is_directory p l = true ->
  (is_not_empty p l = false <-> exists o, l = [o] /\ Key o = (p ++ "/")%string).
Proof.
  unfold is_directory, is_not_empty.
  destruct l as [|o [|o' l]]; cbn [length Nat.ltb Nat.leb orb].
  - discriminate.
  - intros _. destruct (String.eqb_spec (Key o) (p ++ "/")) as [Hk|Hk]; cbn [negb].
    + split; [|reflexivity]. intros _. now exists o.
    + split; [discriminate|]. intros (o' & H & Hn). injection H as <-. contradiction.
  - intros _. split; [discriminate|]. intros (o0 & H & _). discriminate.
Qed.

Lemma blocks_refused p l :
  blocks p l -> is_directory p l = true /\ is_not_empty p l = true.
Proof.
  intros Hb. assert (Hd : is_directory p l = true).
  { apply is_directory_iff. destruct Hb as [H|(o & H & Hn & _)]; [now left|].
    right. now exists o. }
  split; [exact Hd|].
  destruct (is_not_empty p l) eqn:Hn; [reflexivity|].
  apply (is_not_empty_iff _ _ Hd) in Hn. destruct Hn as (o & -> & Hk).
  destruct Hb as [H|(o' & H & _ & Hn)]; [simpl in H; lia|].
  injection H as <-. contradiction.
Qed.

Lemma dir_not_empty_result_eq :
  dir_not_empty_result = JDict [("error", JStr "DIR_NOT_EMPTY")].
Proof. reflexivity. Qed.

Lemma delete_refused config p self (x x' : W E) l :
  lists_after_marker (instance self config) p x l x' ->
  is_directory p l = true -> is_not_empty p l = true ->
  delete config p (self, x)
  = (JDict [("error", JStr "DIR_NOT_EMPTY")], (with_both self config, x')).
Proof.
  intros Hl Hd Hn. unfold delete.
  erewrite delete_try_listed by eassumption. now rewrite Hd, Hn.
Qed.

(** C4. DELETE takes the path for a directory exactly when the listing
    of [p/] has more than one entry, or one entry whose key is not [p];
    it removes such a directory only when the listing is the one entry
    whose key is [p/], and otherwise fails with the non-empty-directory
    error and removes nothing more.  A path that is not taken for a
    directory is removed with [rm]. *)
Theorem delete_directory_decision config p self (x x' : W E) l :
  lists_after_marker (instance self config) p x l x' ->
  (is_directory p l = true <-> (1 < length l \/ exists o, l = [o] /\ Key o <> p))
  /\ (is_directory p l = true ->
      ((exists o, l = [o] /\ Key o = (p ++ "/")%string) ->
       delete config p (self, x)
       = match remove_directory (instance self config) (resource_instance self config) p
                 (with_both self config, x') with
         | (inr _, st') => (JDict [], st')
         | (inl e, st') => (delete_except e, st')
         end)
      /\ (~ (exists o, l = [o] /\ Key o = (p ++ "/")%string) ->
          delete config p (self, x)
          = (JDict [("error", JStr "DIR_NOT_EMPTY")], (with_both self config, x'))))
  /\ (is_directory p l = false ->
      delete config p (self, x)
      = match rm E (instance self config) p x' with
        | (inr _, x2) => (JDict [], (with_both self config, x2))
        | (inl e, x2) => (delete_except e, (with_both self config, x2))
        end).
Proof.
  intros Hl. split; [apply is_directory_iff|]. split.
  - intros Hd. split.
    + intros Ho. apply (is_not_empty_iff _ _ Hd) in Ho.
      unfold delete. erewrite delete_try_listed by eassumption.
      rewrite Hd, Ho. unfold bind, ret.
      now destruct (remove_directory _ _ p _) as [[e|[]] st'].
    + intros Ho. apply delete_refused with (l := l); auto.
      destruct (is_not_empty p l) eqn:Hn; [reflexivity|].
      exfalso. now apply Ho, (is_not_empty_iff _ _ Hd).
  - intros Hd. unfold delete. erewrite delete_try_listed by eassumption.
    rewrite Hd. unfold bind, ret, call. cbn [fst snd].
    now destruct (rm E _ p x') as [[e|[]] x2].
Qed.

(** C1 (amended). A DELETE of a directory whose listing, taken once the
    directory's own [.keep] marker is out of the way, still shows an
    object that is not a marker fails with the non-empty-directory
    error.  On a store whose [exists] and [listdir] only look, the failed
    attempt changes nothing but the marker, which it removes when it is
    there; and made again on the store it left (the marker gone), the
    DELETE fails the same way and changes nothing. *)
Theorem delete_nonempty_directory config p self (x x' : W E) l :
  ReadOnly E ->
  lists_after_marker (instance self config) p x l x' ->
  blocks p l ->
  delete config p (self, x)
  = (JDict [("error", JStr "DIR_NOT_EMPTY")], (with_both self config, x'))
  /\ ((fst (exists_ E (instance self config) (p ++ "/.keep")%string x) = inr false
       /\ x' = x)
      \/ (fst (exists_ E (instance self config) (p ++ "/.keep")%string x) = inr true
          /\ rm E (instance self config) (p ++ "/.keep")%string x = (inr tt, x')))
  /\ (fst (exists_ E (instance self config) (p ++ "/.keep")%string x') = inr false ->
      delete config p (self, x')
      = (JDict [("error", JStr "DIR_NOT_EMPTY")], (with_both self config, x'))).
Proof.
  intros [Hex Hls] Hl Hb. destruct (blocks_refused Hb) as [Hd Hn].
  split; [now apply delete_refused with (l := l)|].
  assert (Hlist : listdir E (instance self config) (p ++ "/")%string x' = (inr l, x')).
  { destruct Hl as [x1 _ Hl|x1 x2 _ _ Hl].
    - pose proof (Hls (instance self config) (p ++ "/")%string x1) as H.
      rewrite Hl in H. cbn [snd] in H. now subst x1.
    - pose proof (Hls (instance self config) (p ++ "/")%string x2) as H.
      rewrite Hl in H. cbn [snd] in H. now subst x2. }
  split.
  - destruct Hl as [x1 He Hl|x1 x2 He Hr Hl].
    + left. pose proof (Hex (instance self config) (p ++ "/.keep")%string x) as H1.
      pose proof (Hls (instance self config) (p ++ "/")%string x1) as H2.
      rewrite He in H1. rewrite Hl in H2. cbn [snd] in H1, H2. subst.
      rewrite He. auto.
    + right. pose proof (Hex (instance self config) (p ++ "/.keep")%string x) as H1.
      pose proof (Hls (instance self config) (p ++ "/")%string x2) as H2.
      rewrite He in H1. rewrite Hl in H2. cbn [snd] in H1, H2. subst.
      rewrite He. auto.
  - intros Hgone. apply delete_refused with (l := l); auto.
    apply marker_absent with (w1 := x'); [|exact Hlist].
    pose proof (Hex (instance self config) (p ++ "/.keep")%string x') as H1.
    destruct (exists_ E (instance self config) (p ++ "/.keep")%string x') as [r x0].
    cbn [fst snd] in *. now subst.
Qed.

(** C9. The response is the empty object [{}], which has no field at
    all, for a PUT that takes the mkdir branch and raises nothing, for a
    PUT with no control header and no body, and for a DELETE that raises
    nothing. *)
Theorem empty_object_responses config p :
  (forall request st r st',
      is_mkdir request ->
      put_try (E := E) config request p st = (inr r, st') ->
      put config request p st = (JDict [], st'))
  /\ (forall request self (x : W E),
         header (headers request) "X-Custom-S3-Copy-Src" = None ->
         header (headers request) "X-Custom-S3-Move-Src" = None ->
         has_header request "X-Custom-S3-Is-Dir" = false ->
         body request = [] ->
         put config request p (self, x) = (JDict [], (with_s3fs self config, x)))
  /\ (forall st r st',
         delete_try (E := E) config p st = (inr r, st') ->
         delete config p st = (JDict [], st'))
  /\ (forall k, PyDict.field (JDict []) k = None).
Proof.
  repeat split.
  - intros request [self x] r st' Hd Hp. unfold put. rewrite Hp.
    erewrite put_try_mkdir in Hp by eassumption.
    rewrite put_mkdir_path in Hp.
    apply bind_inr_inv in Hp. destruct Hp as (a & s1 & _ & Hp).
    apply bind_inr_inv in Hp. destruct Hp as (a' & s2 & _ & Hp).
    unfold ret in Hp. now injection Hp as <- <-.
  - intros request self x Hc Hm Hd Hb. unfold put, put_try.
    rewrite (bind_returns _ _ _ (get_s3fs_runs config self x)).
    now rewrite Hc, Hm, Hd, Hb.
  - intros st r st' Hp. unfold delete. rewrite Hp.
    unfold delete_try in Hp.
    apply bind_inr_inv in Hp. destruct Hp as (a & s1 & _ & Hp).
    apply bind_inr_inv in Hp. destruct Hp as (a' & s2 & _ & Hp).
    apply bind_inr_inv in Hp. destruct Hp as (a'' & s3 & _ & Hp).
    apply bind_inr_inv in Hp. destruct Hp as (a3 & s4 & _ & Hp).
    unfold ret in Hp. now injection Hp as <- <-.
Qed.

(** *** A write and the read that follows *)

Lemma call_inr_inv {A} (m : M (W E) A) self (x : W E) a st' :
  call m (self, x) = (inr a, st') ->
  exists x', m x = (inr a, x') /\ st' = (self, x').
Proof.
  unfold call. cbn [fst snd]. destruct (m x) as [r x'].
  intros H. injection H as -> <-. now exists x'.
Qed.

Lemma with_open_inr_inv {A} fs p m (body : FH E -> M (St E) A) self (x : W E) a st' :
  with_open fs p m body (self, x) = (inr a, st') ->
  exists f x1 st2,
    open_ E fs p m x = (inr f, x1)
    /\ body f (self, x1) = (inr a, st2)
    /\ call (close E f) st2 = (inr tt, st').
Proof.
  unfold with_open. intros H.
  apply bind_inr_inv in H. destruct H as (f & s1 & Ho & H).
  apply call_inr_inv in Ho. destruct Ho as (x1 & Ho & ->).
  destruct (body f (self, x1)) as [[e|a'] st2] eqn:Hb.
  - destruct (call (close E f) st2) as [[e'|u] st3]; discriminate.
  - destruct (call (close E f) st2) as [[e'|[]] st3] eqn:Hc; [discriminate|].
    injection H as <- <-. now exists f, x1, st2.
Qed.

Lemma put_except_not_file e p c :
  put_except e <> JDict [("path", JStr p); ("type", JStr "file"); ("content", c)].
Proof. destruct e; discriminate. Qed.

(** A plain write that answers the file object has opened the file,
    written the text and closed the file. *)
Lemma put_write_inv config request p c self (x : W E) st1 :
  is_plain_write request ->
  put config request p (self, x)
  = (JDict [("path", JStr p); ("type", JStr "file"); ("content", JStr c)], st1) ->
  exists f x1 x2 x3,
    open_ E (instance self config) p w x = (inr f, x1)
    /\ write E f c x1 = (inr tt, x2)
    /\ close E f x2 = (inr tt, x3)
    /\ st1 = (with_s3fs self config, x3).
Proof.
  intros Hw Hp. unfold put in Hp.
  erewrite put_try_write in Hp by eassumption.
  destruct (put_write _ request p _) as [[e|r] st'] eqn:Hpw.
  { injection Hp as Hp _. now apply put_except_not_file in Hp. }
  injection Hp as -> ->. unfold put_write in Hpw.
  apply bind_inr_inv in Hpw. destruct Hpw as (j & s0 & Hj & Hpw).
  unfold eval in Hj. injection Hj as Hj <-.
  apply with_open_inr_inv in Hpw. destruct Hpw as (f & x1 & st2 & Ho & Hb & Hc).
  apply bind_inr_inv in Hb. destruct Hb as (v & s1 & Hv & Hb).
  unfold eval in Hv. injection Hv as Hv <-.
  apply bind_inr_inv in Hb. destruct Hb as ([] & s2 & Hwr & Hb).
  apply bind_inr_inv in Hb. destruct Hb as (v' & s3 & Hv' & Hb).
  unfold eval in Hv'. injection Hv' as Hv' <-.
  unfold ret in Hb.
  change (PyDict.literal [("path", JStr p); ("type", JStr "file"); ("content", v')])
    with (JDict [("path", JStr p); ("type", JStr "file"); ("content", v')]) in Hb.
  injection Hb as Hvc Hs. subst v' st2.
  assert (v = JStr c) by congruence.
  subst v. cbn [write_value] in Hwr.
  apply call_inr_inv in Hwr. destruct Hwr as (x2 & Hwr & ->).
  apply call_inr_inv in Hc. destruct Hc as (x3 & Hc & ->).
  now exists f, x1, x2, x3.
Qed.

(** C3 (amended). On a store that reads back what was written, a plain
    write PUT of a body whose [content] is the text [c] to a file path
    [p], when it answers the file object, is followed by a GET of [p]
    that answers a [content] whose base64 decoding is the UTF-8 encoding
    of [c]: it is [c] itself, byte for byte, when [c] is ASCII. *)
Theorem write_then_read config req_put req_get p c j self self' (x : W E) st1 holds :
  ReadsItsWrites E holds ->
  is_plain_write req_put ->
  json_loads E (body req_put) = inr j ->
  PyDict.field j "content" = Some (JStr c) ->
  is_file_request req_get p = true ->
  put config req_put p (self, x)
  = (JDict [("path", JStr p); ("type", JStr "file"); ("content", JStr c)], st1) ->
  exists k st2,
    get config req_get p (self', world st1)
    = (JDict [("path", JStr p); ("type", JStr "file"); ("content", JStr k)], st2)
    /\ Base64.decode (list_ascii_of_string k) = Utf8.encode c
    /\ (Utf8.is_ascii c = true ->
        Base64.decode (list_ascii_of_string k) = list_ascii_of_string c).
Proof.
  intros [Hwh Hik Hhr] Hw _ _ Hf Hp.
  destruct (put_write_inv _ _ _ Hw Hp) as (f & x1 & x2 & x3 & Ho & Hwr & Hc & ->).
  pose proof (Hwh _ _ _ _ _ _ _ _ Ho Hwr Hc) as Hh.
  destruct (Hik (instance self' config) x3) as (x4 & Hi & Hk).
  destruct (Hhr (instance self' config) _ _ _ (Hk _ _ Hh)) as (x5 & Hl).
  exists (b64 (Utf8.encode c)), (with_s3fs self' config, x5).
  assert (Hd : Base64.decode (list_ascii_of_string (b64 (Utf8.encode c))) = Utf8.encode c).
  { unfold b64. rewrite list_ascii_of_string_of_list_ascii.
    apply Base64Facts.decode_encodebytes. }
  repeat split.
  - unfold get, world. cbn [snd].
    erewrite get_try_file by eassumption.
    now erewrite read_back_returns by eassumption.
  - exact Hd.
  - intros Ha. rewrite Hd. now apply Utf8Facts.encode_ascii.
Qed.

(** *** Authentication *)

Lemma split1_contains c s :
  PyStr.contains c s = true -> exists a b, PyStr.split1 c s = Some (a, b).
Proof.
  induction s as [|d r IH]; cbn [PyStr.contains PyStr.split1]; [discriminate|].
  destruct (d =? c)%char; cbn [orb].
  - intros _. now exists EmptyString, r.
  - intros H. destruct (IH H) as (a & b & ->). now exists (String d a), b.
Qed.

(** On a file whose access-key lines all have their [=], the scan of
    lines 76-84 ends in [return False] exactly when some line holds an
    invalid key. *)
Lemma invalid_access_key_id_scan lines :
  forallb well_formed_line lines = true ->
  invalid_access_key_id lines = inr (existsb is_invalid_key_line lines).
Proof.
  induction lines as [|line rest IH]; [reflexivity|].
  cbn [forallb existsb invalid_access_key_id].
  intros H. apply andb_true_iff in H. destruct H as [Hl Hr].
  unfold well_formed_line in Hl. unfold is_invalid_key_line at 1.
  destruct (PyStr.startswith line "aws_access_key_id"); cbn [negb orb andb] in *.
  - destruct (split1_contains _ _ Hl) as (a & v & ->).
    destruct (negb (PyStr.startswith (PyStr.strip v) "AKIA")
              && negb (PyStr.startswith (PyStr.strip v) "ASIA")); cbn [orb].
    + reflexivity.
    + now apply IH.
  - now apply IH.
Qed.

Lemma has_aws_s3_role_access_runs file (x x1 : W E) :
  aws_credentials_file E x = (inr file, x1) ->
  well_formed file = true ->
  has_aws_s3_role_access E x
  = if skips_ambient file then (inr false, x1)
    else match _test_aws_s3_role_access E x1 with
         | (inr _, x2) => (inr true, x2)
         | (inl _, x2) => (inr false, x2)
         end.
Proof.
  intros Hf Hwf. unfold has_aws_s3_role_access.
  rewrite (bind_returns _ _ _ Hf).
  assert (Hs : match file with
               | Some lines => eval (invalid_access_key_id lines)
               | None => ret false
               end x1 = (inr (skips_ambient file), x1)).
  { destruct file as [lines|]; [|reflexivity].
    unfold eval. cbn [well_formed skips_ambient] in *.
    now rewrite invalid_access_key_id_scan. }
  rewrite (bind_returns _ _ _ Hs).
  destruct (skips_ambient file); [reflexivity|].
  unfold try_except, bind, ret.
  now destruct (_test_aws_s3_role_access E x1) as [[e|l] x2].
Qed.

Lemma check_bucket_access_total b (x : W E) :
  exists ok x', check_bucket_access E b x = (inr ok, x').
Proof.
  unfold check_bucket_access, try_except, bind, ret.
  destruct (head_bucket E b x) as [[e|[]] x']; eauto.
Qed.

Lemma checked_buckets_total l (x : W E) :
  exists r x', checked_buckets E l x = (inr r, x').
Proof.
  revert x. induction l as [|b l IH]; intros x; cbn [checked_buckets].
  - unfold ret. eauto.
  - destruct (check_bucket_access_total b x) as (ok & x1 & H1).
    destruct (IH x1) as (r & x2 & H2).
    rewrite (bind_returns _ _ _ H1), (bind_returns _ _ _ H2).
    unfold ret. eauto.
Qed.

(** [test_s3_credentials] raises exactly when the listing of the buckets
    does. *)
Lemma test_s3_credentials_returns endpoint id secret token (x : W E) :
  (exists x', test_s3_credentials E endpoint id secret token x = (inr tt, x'))
  <-> (exists l x', buckets_all E (Explicit id secret token endpoint) x = (inr l, x')).
Proof.
  unfold test_s3_credentials. split.
  - intros (x' & H). apply bind_inr_inv in H.
    destruct H as (l & x1 & H & _). eauto.
  - intros (l & x1 & H). rewrite (bind_returns _ _ _ H).
    destruct (checked_buckets_total l x1) as (r & x2 & H2).
    rewrite (bind_returns _ _ _ H2). unfold ret. eauto.
Qed.

Lemma explicit_attempt_runs config (x : W E) :
  exists b x',
    explicit_attempt E config x = (inr b, x')
    /\ (b = true <->
        explicit_configured config = true
        /\ exists x2, test_s3_credentials E (endpoint_url config) (client_id config)
                        (client_secret config) (session_token config) x = (inr tt, x2)).
Proof.
  unfold explicit_attempt, try_except.
  destruct (explicit_configured config).
  - unfold bind, ret.
    destruct (test_s3_credentials E _ _ _ _ x) as [[e|[]] x1].
    + exists false, x1. split; [reflexivity|].
      split; [discriminate|]. intros (_ & x2 & H). discriminate.
    + exists true, x1. split; [reflexivity|]. split; eauto.
  - exists false, x. split; [reflexivity|].
    split; [discriminate|]. intros (H & _). discriminate.
Qed.


(** *** Further properties: the authentication functions *)

Lemma accessible_buckets_subsequence l (x : W E) r x' :
  accessible_buckets E l x = (inr r, x') ->
  subsequence r (map bucket_entry l).
Proof.
  revert x r x'. induction l as [|b l IH]; intros x r x' H; cbn [accessible_buckets map] in *.
  - unfold ret in H. injection H as <- _. constructor.
  - apply bind_inr_inv in H. destruct H as (ok & x1 & _ & H).
    apply bind_inr_inv in H. destruct H as (others & x2 & Ho & H).
    unfold ret in H. injection H as <- _.
    destruct ok; [apply subsequence_keep|apply subsequence_skip]; eapply IH; eauto.
Qed.

Lemma subsequence_Forall {A} (P : A -> Prop) (l1 l2 : list A) :
  subsequence l1 l2 -> Forall P l2 -> Forall P l1.
Proof.
  induction 1 as [|a l1 l2 _ IH|a l1 l2 _ IH]; intros HF.
  - constructor.
  - inversion HF; subst. auto.
  - inversion HF; subst. constructor; auto.
Qed.

Lemma subsequence_length {A} (l1 l2 : list A) :
  subsequence l1 l2 -> length l1 <= length l2.
Proof. induction 1; cbn [length]; lia. Qed.

Lemma bucket_entries_shape l :
  Forall (fun e => jtype e = "directory" /\ name e = path e
                   /\ PyStr.endswith (name e) "/" = true)
    (map bucket_entry l).
Proof.
  induction l as [|b l IH]; cbn [map]; constructor; [|exact IH].
  cbn [bucket_entry jtype name path]. repeat split.
  apply PyStrFacts.endswith_append.
Qed.

(** X1. When the listing of the accessible buckets returns, what it returns
    is made from the buckets [list_buckets] gave, in their order, with some
    left out and none added or repeated; every entry is a directory whose
    name and path are the bucket name followed by [/]. *)
Theorem role_access_listing_subsequence (x x' : W E) r :
  _test_aws_s3_role_access E x = (inr r, x') ->
  exists all_buckets x1,
    list_buckets E x = (inr all_buckets, x1)
    /\ subsequence r (map bucket_entry all_buckets)
    /\ length r <= length all_buckets
    /\ Forall (fun e => jtype e = "directory" /\ name e = path e
                        /\ PyStr.endswith (name e) "/" = true) r.
Proof.
  unfold _test_aws_s3_role_access. intros H.
  apply bind_inr_inv in H. destruct H as (l & x1 & Hl & H).
  apply accessible_buckets_subsequence in H.
  exists l, x1. repeat split; auto.
  - apply subsequence_length in H. now rewrite length_map in H.
  - eapply subsequence_Forall; [exact H|apply bucket_entries_shape].
Qed.

Lemma probe_step b (x : W E) :
  snd (list_objects_v2 E b x) = x ->
  try_except (list_objects_v2 E b ;; ret true)
    (fun e =>
       match e with
       | ClientError code _ =>
           if (code =? "AccessDenied")%string then ret false else raise e
       | _ => raise e
       end) x
  = match fst (list_objects_v2 E b x) with
    | inr _ => (inr true, x)
    | inl e => if is_access_denied e then (inr false, x) else (inl e, x)
    end.
Proof.
  unfold try_except, bind, ret, raise.
  destruct (list_objects_v2 E b x) as [[e|[]] x1]; cbn [fst snd]; intros ->.
  - destruct e; cbn [is_access_denied]; try reflexivity.
    now destruct (code =? "AccessDenied")%string.
  - reflexivity.
Qed.

Lemma accessible_buckets_filter l (x : W E) :
  (forall b y, snd (list_objects_v2 E b y) = y) ->
  (forall b, In b l -> probe_returns b x || probe_denied b x = true) ->
  accessible_buckets E l x
  = (inr (map bucket_entry (filter (fun b => probe_returns b x) l)), x).
Proof.
  intros Hro. induction l as [|b l IH]; intros Hall; cbn [accessible_buckets filter map].
  - reflexivity.
  - unfold bind at 1. rewrite probe_step by apply Hro.
    pose proof (Hall b (or_introl eq_refl)) as Hb.
    assert (IH' := IH (fun b' Hin => Hall b' (or_intror Hin))).
    unfold probe_returns, probe_denied in Hb |- *.
    destruct (fst (list_objects_v2 E b x)) as [e|u].
    + cbn [orb] in Hb. rewrite Hb.
      rewrite (bind_returns _ _ _ IH'). reflexivity.
    + rewrite (bind_returns _ _ _ IH'). reflexivity.
Qed.

Lemma accessible_buckets_raises pre b post (x : W E) e :
  (forall b y, snd (list_objects_v2 E b y) = y) ->
  (forall b', In b' pre -> probe_returns b' x || probe_denied b' x = true) ->
  fst (list_objects_v2 E b x) = inl e ->
  is_access_denied e = false ->
  accessible_buckets E (pre ++ b :: post) x = (inl e, x).
Proof.
  intros Hro Hpre He Hd. induction pre as [|b' pre IH]; cbn [app accessible_buckets].
  - unfold bind at 1. rewrite probe_step by apply Hro. now rewrite He, Hd.
  - unfold bind at 1. rewrite probe_step by apply Hro.
    pose proof (Hpre b' (or_introl eq_refl)) as Hb.
    assert (IH' := IH (fun b0 Hin => Hpre b0 (or_intror Hin))).
    unfold probe_returns, probe_denied in Hb.
    destruct (fst (list_objects_v2 E b' x)) as [e'|u].
    + cbn [orb] in Hb. rewrite Hb.
      now rewrite (bind_raises _ _ _ IH').
    + now rewrite (bind_raises _ _ _ IH').
Qed.

(** X2. On a client whose probe [list_objects_v2] changes nothing: when
    every bucket's probe returns or raises the [AccessDenied] client error,
    the listing returns exactly the buckets whose probe returned, in order;
    and the first probe that raises anything else makes the listing raise
    that exception, whatever the later buckets are. *)
Theorem role_access_listing (x x1 : W E) all_buckets :
  (forall b y, snd (list_objects_v2 E b y) = y) ->
  list_buckets E x = (inr all_buckets, x1) ->
  ((forall b, In b all_buckets -> probe_returns b x1 || probe_denied b x1 = true) ->
   _test_aws_s3_role_access E x
   = (inr (map bucket_entry (filter (fun b => probe_returns b x1) all_buckets)), x1))
  /\ (forall pre b post e,
        all_buckets = pre ++ b :: post ->
        (forall b', In b' pre -> probe_returns b' x1 || probe_denied b' x1 = true) ->
        fst (list_objects_v2 E b x1) = inl e ->
        is_access_denied e = false ->
        _test_aws_s3_role_access E x = (inl e, x1)).
Proof.
  intros Hro Hl. unfold _test_aws_s3_role_access. split.
  - intros Hall. rewrite (bind_returns _ _ _ Hl). now apply accessible_buckets_filter.
  - intros pre b post e -> Hpre He Hd. rewrite (bind_returns _ _ _ Hl).
    now apply accessible_buckets_raises.
Qed.

Lemma check_bucket_access_runs b (x : W E) :
  check_bucket_access E b x
  = match head_bucket E b x with
    | (inr _, x') => (inr true, x')
    | (inl _, x') => (inr false, x')
    end.
Proof.
  unfold check_bucket_access, try_except, bind, ret.
  now destruct (head_bucket E b x) as [[e|[]] x'].
Qed.


Lemma split1_none c s : PyStr.split1 c s = None <-> PyStr.contains c s = false.
Proof.
  induction s as [|d r IH]; cbn [PyStr.split1 PyStr.contains]; [tauto|].
  destruct (d =? c)%char; cbn [orb].
  - split; discriminate.
  - destruct (PyStr.split1 c r) as [[a b]|].
    + split; [discriminate|]. intros H. apply IH in H. discriminate.
    + split; [|reflexivity]. intros _. now apply IH.
Qed.

Lemma scan_step_malformed line rest :
  is_malformed_key_line line = true ->
  invalid_access_key_id (line :: rest) = inl (IndexError "list index out of range").
Proof.
  unfold is_malformed_key_line. intros H. apply andb_true_iff in H.
  destruct H as [Hs Hc]. apply negb_true_iff, split1_none in Hc.
  cbn [invalid_access_key_id]. now rewrite Hs, Hc.
Qed.

Lemma scan_step_other line rest :
  is_malformed_key_line line = false ->
  is_invalid_key_line line = false ->
  invalid_access_key_id (line :: rest) = invalid_access_key_id rest.
Proof.
  unfold is_malformed_key_line, is_invalid_key_line.
  cbn [invalid_access_key_id].
  destruct (PyStr.startswith line "aws_access_key_id"); cbn [andb]; [|reflexivity].
  destruct (PyStr.split1 "="%char line) as [[a v]|] eqn:Hs.
  - intros _ ->. reflexivity.
  - intros H. apply negb_false_iff in H. apply split1_none in Hs. congruence.
Qed.

Lemma scan_step_invalid line rest :
  is_invalid_key_line line = true ->
  invalid_access_key_id (line :: rest) = inr true.
Proof.
  unfold is_invalid_key_line. cbn [invalid_access_key_id].
  destruct (PyStr.startswith line "aws_access_key_id"); cbn [andb]; [|discriminate].
  destruct (PyStr.split1 "="%char line) as [[a v]|]; [|discriminate].
  now intros ->.
Qed.

Lemma invalid_not_malformed line :
  is_invalid_key_line line = true -> is_malformed_key_line line = false.
Proof.
  unfold is_invalid_key_line, is_malformed_key_line.
  destruct (PyStr.startswith line "aws_access_key_id"); cbn [andb]; [|reflexivity].
  destruct (PyStr.split1 "="%char line) as [[a v]|] eqn:Hs; [|discriminate].
  intros _. destruct (PyStr.contains "="%char line) eqn:Hc; [reflexivity|].
  apply split1_none in Hc. congruence.
Qed.

(** X5. The scan of the credentials file raises only [IndexError], and
    exactly when a line that starts with [aws_access_key_id] has no [=]
    and no line before it holds an invalid access key or lacks its [=]. *)
Theorem credentials_scan_raises lines e :
  invalid_access_key_id lines = inl e <->
  e = IndexError "list index out of range"
  /\ exists pre line post,
       lines = pre ++ line :: post
       /\ is_malformed_key_line line = true
       /\ existsb is_invalid_key_line pre = false
       /\ existsb is_malformed_key_line pre = false.
Proof.
  induction lines as [|l rest IH].
  - split; [discriminate|]. intros (_ & pre & line & post & H & _).
    destruct pre; discriminate.
  - destruct (is_malformed_key_line l) eqn:Hm.
    + rewrite (scan_step_malformed _ rest Hm). split.
      * intros H. injection H as <-. split; [reflexivity|].
        exists [], l, rest. auto.
      * intros (-> & _). reflexivity.
    + destruct (is_invalid_key_line l) eqn:Hi.
      * rewrite (scan_step_invalid _ rest Hi). split; [discriminate|].
        intros (_ & pre & line & post & H & Hl & Hpi & Hpm).
        destruct pre as [|l0 pre]; cbn [app existsb] in *; injection H as -> ->.
        -- congruence.
        -- rewrite Hi in Hpi. discriminate.
      * rewrite (scan_step_other _ rest Hm Hi), IH. split.
        -- intros (-> & pre & line & post & -> & Hl & Hpi & Hpm).
           split; [reflexivity|]. exists (l :: pre), line, post.
           cbn [app existsb]. rewrite Hi, Hm. auto.
        -- intros (-> & pre & line & post & H & Hl & Hpi & Hpm).
           split; [reflexivity|].
           destruct pre as [|l0 pre]; cbn [app existsb] in *; injection H as -> ->.
           ++ congruence.
           ++ apply orb_false_iff in Hpi, Hpm. exists pre, line, post. tauto.
Qed.

Lemma explicit_attempt_total config (x : W E) :
  exists b x', explicit_attempt E config x = (inr b, x').
Proof.
  destruct (explicit_attempt_runs config x) as (b & x' & H & _). eauto.
Qed.

Lemma bind_raises_iff {S A B} (m : M S A) (k : A -> M S B) s e s' :
  (forall a t, exists r t', k a t = (inr r, t')) ->
  bind m k s = (inl e, s') <-> m s = (inl e, s').
Proof.
  intros Hk. unfold bind. destruct (m s) as [[e0|a] s1].
  - split; intros H; injection H as <- <-; reflexivity.
  - destruct (Hk a s1) as (r & t' & ->). split; discriminate.
Qed.

Lemma role_attempt_total (invalid : bool) (x : W E) :
  exists r x',
    (if invalid then ret false
     else try_except (_test_aws_s3_role_access E ;; ret true) (fun _ => ret false)) x
    = (inr r, x').
Proof.
  destruct invalid; [eexists; eexists; reflexivity|].
  unfold try_except, bind, ret.
  destruct (_test_aws_s3_role_access E x) as [[e|l] x']; eexists; eexists; reflexivity.
Qed.

Lemma auth_tail_total config (role : bool) (x : W E) :
  exists r x',
    bind (if role then ret true else explicit_attempt E config)
      (fun authenticated =>
         ret (PyDict.literal [("authenticated", JBool authenticated)])) x
    = (inr r, x').
Proof.
  destruct role.
  - eexists. eexists. reflexivity.
  - destruct (explicit_attempt_total config x) as (b & x' & H).
    rewrite (bind_returns _ _ _ H). eexists. eexists. reflexivity.
Qed.

(** X4. [AuthHandler.get] lets an exception out only from the credentials
    file: when reading the file raises, or when the scan of its lines
    does.  No exception of the bucket listings reaches the caller, with
    either kind of credentials. *)
Theorem auth_get_raises config (x x' : W E) e :
  auth_get E config x = (inl e, x') <->
  aws_credentials_file E x = (inl e, x')
  \/ exists lines,
       aws_credentials_file E x = (inr (Some lines), x')
       /\ invalid_access_key_id lines = inl e.
Proof.
  unfold auth_get.
  rewrite bind_raises_iff by (intros; apply auth_tail_total).
  unfold has_aws_s3_role_access. unfold bind at 1.
  destruct (aws_credentials_file E x) as [[e0|file] x1].
  - split.
    + intros H. injection H as <- <-. now left.
    + intros [H|(lines & H & _)]; [|discriminate]. now injection H as <- <-.
  - rewrite bind_raises_iff by (intros; apply role_attempt_total).
    destruct file as [lines|]; unfold eval, ret.
    + split.
      * intros H. injection H as H <-. right. now exists lines.
      * intros [H|(lines' & H & Hs)]; [discriminate|].
        injection H as <- <-. now rewrite Hs.
    + split; [discriminate|].
      intros [H|(lines' & H & Hs)]; discriminate.
Qed.

(** *** Further properties: construction, listings, the handler object *)

Lemma truthy_false s : PyStr.truthy s = false <-> s = EmptyString.
Proof. destruct s; cbn; split; congruence. Qed.

(** X6. [create_s3fs] and [create_s3_resource] choose the same
    credentials; they fall back to the ambient ones exactly when the
    endpoint, the client id or the client secret is empty, whatever the
    session token, and pass all four values on otherwise. *)
Theorem create_credentials config :
  create_s3fs config = create_s3_resource config
  /\ (create_s3fs config = Ambient <->
      endpoint_url config = EmptyString \/ client_id config = EmptyString
      \/ client_secret config = EmptyString)
  /\ (create_s3fs config <> Ambient ->
      create_s3fs config
      = Explicit (client_id config) (client_secret config) (session_token config)
          (endpoint_url config)).
Proof.
  split; [reflexivity|]. unfold create_s3fs, explicit_configured.
  rewrite <- !truthy_false.
  destruct (PyStr.truthy (endpoint_url config)), (PyStr.truthy (client_id config)),
    (PyStr.truthy (client_secret config)); cbn [andb];
    (split; [split; [try discriminate; tauto|intuition discriminate]|congruence]).
Qed.

Lemma rsplit_last_decompose c s :
  exists d,
    s = (d ++ PyStr.rsplit_last c s)%string
    /\ (d = EmptyString \/ PyStr.endswith d (String c EmptyString) = true).
Proof.
  induction s as [|a r IH].
  - exists EmptyString. auto.
  - cbn [PyStr.rsplit_last]. destruct (PyStr.contains c r) eqn:Hc.
    + destruct IH as (d & Hr & Hd). exists (String a d). split.
      * cbn [append]. now rewrite <- Hr.
      * right. rewrite PyStrFacts.endswith_cons. destruct Hd as [->|Hd].
        -- cbn [append] in Hr. rewrite Hr in Hc.
           now rewrite PyStrFacts.rsplit_last_has_no_sep in Hc.
        -- rewrite Hd. apply orb_true_r.
    + destruct (Ascii.eqb_spec a c) as [->|Hn].
      * exists (String c EmptyString). split; [reflexivity|]. right.
        rewrite PyStrFacts.endswith_cons, String.eqb_refl. reflexivity.
      * exists EmptyString. auto.
Qed.

(** X7. [convertS3FStoJupyterFormat] keeps the key as path and the type,
    and splits the key at its last [/]: the key is a prefix, empty or
    ending with [/], followed by the name, and the name holds no [/].  A
    key without [/] is its own name. *)
Theorem convert_splits_key r :
  path (convertS3FStoJupyterFormat r) = Key r
  /\ jtype (convertS3FStoJupyterFormat r) = type_ r
  /\ PyStr.contains PyStr.slash (name (convertS3FStoJupyterFormat r)) = false
  /\ (exists d,
        Key r = (d ++ name (convertS3FStoJupyterFormat r))%string
        /\ (d = EmptyString \/ PyStr.endswith d "/" = true))
  /\ (PyStr.contains PyStr.slash (Key r) = false ->
      name (convertS3FStoJupyterFormat r) = Key r).
Proof.
  cbn [convertS3FStoJupyterFormat path jtype name]. repeat split.
  - apply PyStrFacts.rsplit_last_has_no_sep.
  - apply rsplit_last_decompose.
  - apply PyStrFacts.rsplit_last_no_sep.
Qed.

Lemma filter_subsequence {A} (f : A -> bool) (l : list A) : subsequence (filter f l) l.
Proof.
  induction l as [|a l IH]; cbn [filter]; [constructor|].
  destruct (f a); now constructor.
Qed.

Lemma kept_entry_is_entry r :
  has_name r = true ->
  is_entry_of r (json_of_entry (convertS3FStoJupyterFormat r)).
Proof.
  intros Hn. rewrite <- name_nonempty_iff in Hn.
  exists (name (convertS3FStoJupyterFormat r)).
  cbn [convertS3FStoJupyterFormat name] in *.
  destruct (rsplit_last_decompose PyStr.slash (Key r)) as (d & Hk & _).
  repeat split.
  - intros He. rewrite He in Hn. discriminate.
  - apply PyStrFacts.rsplit_last_has_no_sep.
  - rewrite Hk at 1. apply PyStrFacts.endswith_append.
Qed.

(** X8. A GET that lists answers a JSON list that follows a subsequence
    of the store listing: it is no longer than the store listing, and
    each entry carries the key and the type of its store entry and a name
    that is not empty, holds no [/] and ends the key. *)
Theorem get_listing_entries config request p self (x x1 x' : W E) raw :
  is_file_request request p = false ->
  invalidate_cache E (instance self config) x = (inr tt, x1) ->
  listdir E (instance self config) p x1 = (inr raw, x') ->
  exists kept js,
    fst (get config request p (self, x)) = JList js
    /\ subsequence kept raw
    /\ Forall2 is_entry_of kept js
    /\ length js <= length raw.
Proof.
  intros Hf Hi Hl.
  exists (filter has_name raw),
    (map (fun r => json_of_entry (convertS3FStoJupyterFormat r)) (filter has_name raw)).
  repeat split.
  - unfold get. erewrite get_try_listing by eassumption.
    rewrite (bind_returns _ _ _ (call_returns _ _ _ Hl)).
    unfold ret. cbn [fst]. apply listing_result_eq.
  - apply filter_subsequence.
  - induction raw as [|r raw IH] in |- *; cbn [filter map]; [constructor|].
    destruct (has_name r) eqn:Hn; cbn [map]; [|exact IH].
    constructor; [now apply kept_entry_is_entry|exact IH].
  - rewrite length_map. apply subsequence_length, filter_subsequence.
Qed.

Lemma keeps_self_call {A} (m : M (W E) A) : keeps_self (call m).
Proof. intros [self x]. unfold call. cbn [fst snd]. now destruct (m x). Qed.

Lemma keeps_self_ret {A} (a : A) : keeps_self (E := E) (ret a).
Proof. intros st. reflexivity. Qed.

Lemma keeps_self_raise {A} e : keeps_self (E := E) (A := A) (raise e).
Proof. intros st. reflexivity. Qed.

Lemma keeps_self_eval {A} (r : exn + A) : keeps_self (E := E) (eval r).
Proof. intros st. reflexivity. Qed.

Lemma keeps_self_bind {A B} (m : M (St E) A) (k : A -> M (St E) B) :
  keeps_self m -> (forall a, keeps_self (k a)) -> keeps_self (bind m k).
Proof.
  intros Hm Hk st. unfold bind. specialize (Hm st).
  destruct (m st) as [[e|a] st1]; cbn [fst snd] in *; [exact Hm|].
  now rewrite Hk.
Qed.

Lemma keeps_self_with_open {A} fs p m (body : FH E -> M (St E) A) :
  (forall f, keeps_self (body f)) -> keeps_self (with_open fs p m body).
Proof.
  intros Hb. unfold with_open. apply keeps_self_bind; [apply keeps_self_call|].
  intros f st. specialize (Hb f st).
  destruct (body f st) as [[e|a] st1]; cbn [fst snd] in *;
    pose proof (keeps_self_call (close E f) st1) as Hc;
    destruct (call (close E f) st1) as [[e'|u] st2]; cbn [fst snd] in *; congruence.
Qed.

Lemma keeps_self_read_back fs p : keeps_self (read_back (E := E) fs p).
Proof.
  apply keeps_self_with_open. intros f.
  apply keeps_self_bind; [apply keeps_self_call|]. intros. apply keeps_self_ret.
Qed.

Lemma snd_get config request p (st : St E) :
  snd (get config request p st) = snd (get_try config request p st).
Proof. unfold get. now destruct (get_try config request p st) as [[e|r] st']. Qed.

Lemma snd_put config request p (st : St E) :
  snd (put config request p st) = snd (put_try config request p st).
Proof. unfold put. now destruct (put_try config request p st) as [[e|r] st']. Qed.

Lemma snd_delete config p (st : St E) :
  snd (delete config p st) = snd (delete_try config p st).
Proof. unfold delete. now destruct (delete_try config p st) as [[e|r] st']. Qed.

Create HintDb keeps_self discriminated.
#[local] Hint Resolve keeps_self_call keeps_self_ret keeps_self_raise keeps_self_eval
  keeps_self_read_back keeps_self_with_open keeps_self_bind : keeps_self.


(** *** Further properties: responses and dispatch *)

Lemma no_error_ret v : PyDict.field v "error" = None -> returns_no_error (E := E) (ret v).
Proof. intros Hv st r st' H. unfold ret in H. now injection H as <- _. Qed.

Lemma no_error_raise e : returns_no_error (E := E) (raise e).
Proof. intros st r st' H. discriminate. Qed.

Lemma no_error_bind {A} (m : M (St E) A) k :
  (forall a, returns_no_error (k a)) -> returns_no_error (bind m k).
Proof.
  intros Hk st r st' H. apply bind_inr_inv in H.
  destruct H as (a & s1 & _ & H). eapply Hk; eauto.
Qed.

Lemma no_error_with_open fs p m body :
  (forall f, returns_no_error (body f)) ->
  returns_no_error (E := E) (with_open fs p m body).
Proof.
  intros Hb [self x] r st' H. apply with_open_inr_inv in H.
  destruct H as (f & x1 & st2 & _ & H & _). eapply Hb; eauto.
Qed.

Lemma no_error_read_back fs p : returns_no_error (E := E) (read_back fs p).
Proof.
  apply no_error_with_open. intros f. apply no_error_bind. intros b.
  now apply no_error_ret.
Qed.

Lemma no_error_get_try config request p : returns_no_error (E := E) (get_try config request p).
Proof.
  unfold get_try. apply no_error_bind. intros fs. apply no_error_bind. intros _.
  destruct (is_file_request request p); [apply no_error_read_back|].
  apply no_error_bind. intros raw. now apply no_error_ret.
Qed.

Lemma no_error_put_try config request p : returns_no_error (E := E) (put_try config request p).
Proof.
  unfold put_try. apply no_error_bind. intros fs.
  destruct (header (headers request) "X-Custom-S3-Copy-Src").
  { unfold put_copy. apply no_error_bind. intros _. apply no_error_read_back. }
  destruct (header (headers request) "X-Custom-S3-Move-Src").
  { unfold put_move. apply no_error_bind. intros _. apply no_error_read_back. }
  destruct (has_header request "X-Custom-S3-Is-Dir").
  { unfold put_mkdir. apply no_error_bind. intros _. apply no_error_bind. intros _.
    now apply no_error_ret. }
  destruct (body request); [now apply no_error_ret|].
  unfold put_write. apply no_error_bind. intros j. apply no_error_with_open. intros f.
  apply no_error_bind. intros v. apply no_error_bind. intros _.
  apply no_error_bind. intros v'. now apply no_error_ret.
Qed.

Lemma no_error_delete_try config p : returns_no_error (E := E) (delete_try config p).
Proof.
  unfold delete_try. apply no_error_bind. intros fs. apply no_error_bind. intros res.
  apply no_error_bind. intros l. apply no_error_bind. intros _. now apply no_error_ret.
Qed.

Lemma get_except_has_error e : PyDict.field (get_except e) "error" <> None.
Proof. destruct e; discriminate. Qed.

Lemma put_except_has_error e : PyDict.field (put_except e) "error" <> None.
Proof. destruct e; discriminate. Qed.

Lemma delete_except_has_error e : PyDict.field (delete_except e) "error" <> None.
Proof. destruct e; discriminate. Qed.

(** X10. The response of GET, PUT and DELETE has an [error] field exactly
    when the body of the method raised: a caller tells failure from
    success by that field alone. *)
Theorem error_field_iff_exception config request p (st : St E) :
  (PyDict.field (fst (get config request p st)) "error" = None
   <-> exists r st', get_try config request p st = (inr r, st'))
  /\ (PyDict.field (fst (put config request p st)) "error" = None
      <-> exists r st', put_try config request p st = (inr r, st'))
  /\ (PyDict.field (fst (delete config p st)) "error" = None
      <-> exists r st', delete_try config p st = (inr r, st')).
Proof.
  repeat split.
  - unfold get. destruct (get_try config request p st) as [[e|r] st'] eqn:H; cbn [fst].
    + intros He. now apply get_except_has_error in He.
    + eauto.
  - intros (r & st' & H). unfold get. rewrite H. cbn [fst].
    eapply no_error_get_try; eauto.
  - unfold put. destruct (put_try config request p st) as [[e|r] st'] eqn:H; cbn [fst].
    + intros He. now apply put_except_has_error in He.
    + eauto.
  - intros (r & st' & H). unfold put. rewrite H. cbn [fst].
    eapply no_error_put_try; eauto.
  - unfold delete. destruct (delete_try config p st) as [[e|r] st'] eqn:H; cbn [fst].
    + intros He. now apply delete_except_has_error in He.
    + eauto.
  - intros (r & st' & H). unfold delete. rewrite H. cbn [fst].
    eapply no_error_delete_try; eauto.
Qed.

(** X11. The control headers of a PUT are tested in the order copy, move,
    directory hint, and the first one present decides alone: two requests
    that agree on it get the same response and leave the same state,
    whatever their other headers and their bodies are. *)
Theorem put_dispatch_priority config p (st : St E) r1 r2 :
  (forall source,
      header (headers r1) "X-Custom-S3-Copy-Src" = Some source ->
      header (headers r2) "X-Custom-S3-Copy-Src" = Some source ->
      put config r1 p st = put config r2 p st)
  /\ (forall source,
        header (headers r1) "X-Custom-S3-Copy-Src" = None ->
        header (headers r2) "X-Custom-S3-Copy-Src" = None ->
        header (headers r1) "X-Custom-S3-Move-Src" = Some source ->
        header (headers r2) "X-Custom-S3-Move-Src" = Some source ->
        put config r1 p st = put config r2 p st)
  /\ (is_mkdir r1 -> is_mkdir r2 -> put config r1 p st = put config r2 p st).
Proof.
  destruct st as [self x]. repeat split.
  - intros source H1 H2. unfold put.
    now rewrite (put_try_copy _ _ _ _ _ H1), (put_try_copy _ _ _ _ _ H2).
  - intros source Hc1 Hc2 H1 H2. unfold put.
    now rewrite (put_try_move _ _ _ _ _ Hc1 H1), (put_try_move _ _ _ _ _ Hc2 H2).
  - intros H1 H2. unfold put.
    now rewrite (put_try_mkdir _ _ _ _ H1), (put_try_mkdir _ _ _ _ H2).
Qed.

(** *** Further properties: writes, removals, directories *)

Lemma put_write_body_error fs request p j e self (x x1 : W E) f :
  json_loads E (body request) = inr j ->
  content_error j = Some e ->
  open_ E fs p w x = (inr f, x1) ->
  put_write fs request p (self, x)
  = match close E f x1 with
    | (inr _, x2) => (inl e, (self, x2))
    | (inl e', x2) => (inl e', (self, x2))
    end.
Proof.
  intros Hj He Ho. unfold put_write, eval at 1. unfold bind at 1. rewrite Hj.
  unfold with_open. rewrite (bind_returns _ _ _ (call_returns _ _ _ Ho)).
  unfold content_error in He.
  assert (Hb : forall k : unit -> M (St E) json,
             bind (eval (subscript j "content"))
               (fun content => bind (write_value f content) k) (self, x1)
             = (inl e, (self, x1))).
  { intros k. unfold bind at 1, eval.
    destruct (subscript j "content") as [e0|v].
    - injection He as <-. reflexivity.
    - destruct v; cbn [write_value]; try discriminate;
        injection He as <-; reflexivity. }
  rewrite Hb. unfold call. cbn [fst snd].
  now destruct (close E f x1) as [[e'|[]] x2].
Qed.

(** X12. A plain write PUT with a bad body.  When [json.loads] raises,
    the response is the error object of that exception and the store is
    not touched.  When the decoded body has no [content], or a [content]
    that is not a string, the file has been opened for writing by then:
    it is closed with nothing written to it, and the response is the
    error object of the [KeyError] or [TypeError] (of the exception of
    [close] when closing raises). *)
Theorem put_write_bad_body config request p self (x : W E) :
  is_plain_write request ->
  (forall e,
      json_loads E (body request) = inl e ->
      put config request p (self, x) = (put_except e, (with_s3fs self config, x)))
  /\ (forall j e f x1,
        json_loads E (body request) = inr j ->
        content_error j = Some e ->
        open_ E (instance self config) p w x = (inr f, x1) ->
        put config request p (self, x)
        = match close E f x1 with
          | (inr _, x2) => (put_except e, (with_s3fs self config, x2))
          | (inl e', x2) => (put_except e', (with_s3fs self config, x2))
          end).
Proof.
  intros Hw. split.
  - intros e Hj. unfold put. erewrite put_try_write by eassumption.
    unfold put_write, eval, bind. now rewrite Hj.
  - intros j e f x1 Hj He Ho. unfold put. erewrite put_try_write by eassumption.
    erewrite put_write_body_error by eassumption.
    now destruct (close E f x1) as [[e'|[]] x2].
Qed.

Lemma split1_decompose c s a b :
  PyStr.split1 c s = Some (a, b) ->
  s = (a ++ String c b)%string
  /\ PyStr.contains c a = false
  /\ PyStr.count c s = S (PyStr.count c b).
Proof.
  revert a. induction s as [|d r IH]; intros a; cbn [PyStr.split1 PyStr.count]; [discriminate|].
  destruct (Ascii.eqb_spec d c) as [->|Hn].
  - intros H. injection H as <- <-. auto.
  - destruct (PyStr.split1 c r) as [[a' b']|]; [|discriminate].
    intros H. injection H as <- <-.
    destruct (IH a' eq_refl) as (-> & Ha & Hc). repeat split.
    + cbn [PyStr.contains]. destruct (Ascii.eqb_spec d c); [contradiction|exact Ha].
    + exact Hc.
Qed.

Lemma count_contains c s : 0 < PyStr.count c s -> PyStr.contains c s = true.
Proof.
  induction s as [|d r IH]; cbn [PyStr.count PyStr.contains]; [lia|].
  destruct (d =? c)%char; cbn [orb]; [reflexivity|]. exact IH.
Qed.

Lemma count_split1 c s : 0 < PyStr.count c s -> exists a b, PyStr.split1 c s = Some (a, b).
Proof. intros H. now apply split1_contains, count_contains. Qed.

(** X13. The removal of a directory that passed the check.  A path with
    more than one [/] is cut at its first [/] into bucket and prefix: the
    bucket holds no [/], the prefix holds one, bucket, [/] and prefix make
    the path again, and all objects of the bucket under the prefix are
    deleted through the boto3 resource; the unpacking of the split never
    fails.  A path with at most one [/] is removed with [s3fs.rm]. *)
Theorem remove_directory_target fs resource p :
  (1 < PyStr.count PyStr.slash p ->
   exists bucket_name prefix,
     PyStr.split1 PyStr.slash p = Some (bucket_name, prefix)
     /\ p = (bucket_name ++ "/" ++ prefix)%string
     /\ PyStr.contains PyStr.slash bucket_name = false
     /\ PyStr.contains PyStr.slash prefix = true
     /\ remove_directory (E := E) fs resource p
        = call (bucket_objects_filter_delete E resource bucket_name prefix))
  /\ (PyStr.count PyStr.slash p <= 1 ->
      remove_directory (E := E) fs resource p = call (rm E fs p)).
Proof.
  unfold remove_directory. split.
  - intros Hc. destruct (count_split1 PyStr.slash p) as (a & b & Hs); [lia|].
    destruct (split1_decompose _ _ Hs) as (Hp & Ha & Hn).
    exists a, b. repeat split; auto.
    + apply count_contains. lia.
    + rewrite Hs. apply Nat.ltb_lt in Hc. now rewrite Hc.
  - intros Hc. apply Nat.ltb_ge in Hc. now rewrite Hc.
Qed.

Lemma directory_path_idem p : directory_path (directory_path p) = directory_path p.
Proof.
  destruct (directory_path_normal p) as (_ & _ & He & Hl).
  unfold directory_path at 1. now rewrite Hl, He.
Qed.

(** X14. The mkdir branch does not tell apart paths that differ in letter
    case or in one trailing [/]: for two paths with the same lower-case
    form, for a path and the path it was normalised to, and for a path
    and the same path followed by [/], it makes the same calls. *)
Theorem put_mkdir_same_directory fs p :
  (forall q, PyStr.lower p = PyStr.lower q -> put_mkdir (E := E) fs p = put_mkdir fs q)
  /\ put_mkdir (E := E) fs (directory_path p) = put_mkdir fs p
  /\ (PyStr.endswith (PyStr.lower p) "/" = false ->
      put_mkdir (E := E) fs (p ++ "/")%string = put_mkdir fs p).
Proof.
  repeat split.
  - intros q Hq. rewrite !put_mkdir_path. unfold directory_path. now rewrite Hq.
  - now rewrite !put_mkdir_path, directory_path_idem.
  - intros He. rewrite !put_mkdir_path.
    assert (Hd : directory_path (p ++ "/")%string = directory_path p).
    { unfold directory_path. rewrite PyStrFacts.lower_append, He.
      change (PyStr.lower "/") with "/".
      now rewrite PyStrFacts.endswith_append. }
    now rewrite Hd.
Qed.

Lemma delete_try_start config p self (x : W E) :
  delete_try config p (self, x)
  = bind (remove_marker_and_list (instance self config) p)
      (fun l =>
         (if is_directory p l
          then
            if is_not_empty p l
            then raise (DirectoryNotEmptyException "")
            else remove_directory (instance self config) (resource_instance self config) p
          else call (rm E (instance self config) p)) ;;
         ret (PyDict.literal [])) (with_both self config, x).
Proof.
  unfold delete_try.
  rewrite (bind_returns _ _ _ (get_s3fs_runs config self x)).
  now rewrite (bind_returns _ _ _ (get_s3_resource_runs config self x)).
Qed.

(** X15. Where a DELETE stops.  When looking for the marker raises, or
    removing the marker raises, nothing is listed and nothing else is
    removed; when the listing raises, the path itself is not removed, and
    a marker removed before stays removed.  The response is the error
    object of the exception in each case. *)
Theorem delete_stops config p self (x : W E) :
  let fs := instance self config in
  let marker := (p ++ "/.keep")%string in
  (forall e x1,
      exists_ E fs marker x = (inl e, x1) ->
      delete config p (self, x) = (delete_except e, (with_both self config, x1)))
  /\ (forall e x1 x2,
        exists_ E fs marker x = (inr true, x1) ->
        rm E fs marker x1 = (inl e, x2) ->
        delete config p (self, x) = (delete_except e, (with_both self config, x2)))
  /\ (forall e x1 x2,
        exists_ E fs marker x = (inr false, x1) ->
        listdir E fs (p ++ "/")%string x1 = (inl e, x2) ->
        delete config p (self, x) = (delete_except e, (with_both self config, x2)))
  /\ (forall e x1 x2 x3,
        exists_ E fs marker x = (inr true, x1) ->
        rm E fs marker x1 = (inr tt, x2) ->
        listdir E fs (p ++ "/")%string x2 = (inl e, x3) ->
        delete config p (self, x) = (delete_except e, (with_both self config, x3))).
Proof.
  intros fs marker. subst fs marker. repeat split.
  - intros e x1 He. unfold delete. rewrite delete_try_start.
    unfold remove_marker_and_list.
    erewrite bind_raises; [reflexivity|].
    now rewrite (bind_raises _ _ _ (call_returns _ _ _ He)).
  - intros e x1 x2 He Hr. unfold delete. rewrite delete_try_start.
    unfold remove_marker_and_list.
    erewrite bind_raises; [reflexivity|].
    rewrite (bind_returns _ _ _ (call_returns _ _ _ He)).
    now rewrite (bind_raises _ _ _ (call_returns _ _ _ Hr)).
  - intros e x1 x2 He Hl. unfold delete. rewrite delete_try_start.
    unfold remove_marker_and_list.
    erewrite bind_raises; [reflexivity|].
    rewrite (bind_returns _ _ _ (call_returns _ _ _ He)).
    unfold ret at 1. unfold bind at 1.
    now rewrite (call_returns _ _ _ Hl).
  - intros e x1 x2 x3 He Hr Hl. unfold delete. rewrite delete_try_start.
    unfold remove_marker_and_list.
    erewrite bind_raises; [reflexivity|].
    rewrite (bind_returns _ _ _ (call_returns _ _ _ He)).
    rewrite (bind_returns _ _ _ (call_returns _ _ _ Hr)).
    now rewrite (call_returns _ _ _ Hl).
Qed.

End HandlerFacts.

(** ** The in-memory store *)

Module MemFacts.

Lemma lookup_put A (l : list (str * A)) k v : Mem.lookup (Mem.put l k v) k = Some v.
Proof.
  induction l as [|[k' v'] l IH]; cbn [Mem.put Mem.lookup].
  - now rewrite String.eqb_refl.
  - destruct (String.eqb_spec k' k) as [->|Hk]; cbn [Mem.lookup].
    + now rewrite String.eqb_refl.
    + destruct (String.eqb_spec k' k); [contradiction|exact IH].
Qed.

Lemma read_only loads : ReadOnly (Mem.env loads).
Proof.
  split; intros fs q x; cbn [exists_ listdir Mem.env].
  - reflexivity.
  - unfold Mem.m_listdir, Mem.not_found, raise.
    destruct (Mem.rstrip_slash q); [reflexivity|].
    destruct (Mem.children _ _ _); [|reflexivity].
    now destruct (Mem.lookup _ _).
Qed.

Lemma accepts_existing loads : AcceptsExisting (Mem.env loads).
Proof.
  intros fs d x x1 x2 _ _. cbn [mkdir touch Mem.env].
  eexists. eexists. split; reflexivity.
Qed.

Lemma reads_its_writes loads : ReadsItsWrites (Mem.env loads) Mem.holds.
Proof.
  split.
  - intros fs p c x0 f x1 x2 x3. cbn [open_ write close Mem.env].
    unfold Mem.m_open. intros Ho. injection Ho as <- <-.
    unfold Mem.m_write. cbn [fst snd Mem.buffers Mem.with_buffers].
    rewrite lookup_put. intros Hw. injection Hw as <-.
    unfold Mem.m_close. cbn [fst snd Mem.buffers Mem.with_buffers].
    rewrite lookup_put. intros Hc. injection Hc as <-.
    unfold Mem.holds. cbn [Mem.objects Mem.with_buffers Mem.with_objects app].
    apply lookup_put.
  - intros fs x. exists x. split; [reflexivity|auto].
  - intros fs p b x Hh. unfold Mem.holds in Hh. exists x, (p, rb), x, x.
    cbn [open_ read close Mem.env]. unfold Mem.m_open, Mem.m_read, Mem.m_close.
    cbn [fst snd]. rewrite Hh. auto.
Qed.

End MemFacts.

(** ** The handlers on the in-memory store *)

Module Examples.

(** A GET of a key that is not there: the store raises [FileNotFoundError]
    and the response is the 500 object. *)
Lemma get_not_found_answers_500_witness :
  get (E := Mem.E0) Mem.cfg Mem.plain_request "b/zz" (Mem.fresh, Mem.example)
  = (JDict [("error", JInt 500); ("message", JStr "b/zz")],
     (with_s3fs Mem.fresh Mem.cfg, Mem.example))
  /\ fst (get (E := Mem.E0) Mem.cfg Mem.plain_request "b/zz" (Mem.fresh, Mem.example))
     <> JDict [("error", JInt 404);
               ("message", JStr "The requested resource could not be found.")].
Proof.
  apply (@get_not_found_answers_500 Mem.E0 Mem.cfg Mem.plain_request "b/zz" Mem.fresh
           Mem.example Mem.example "b/zz").
  - reflexivity.
  - right. exists Mem.example. split; [reflexivity|].
    apply open_raises. reflexivity.
Defined.

(** A listing: the entry of the key [b/d/], whose name is empty, is left
    out, and the other two keep their order. *)
Lemma get_response_witness :
  get (E := Mem.E0) Mem.cfg Mem.plain_request "b/d/"
    (Mem.fresh, Mem.store [("b/d/z.txt", []); ("b/d/", []); ("b/d/a.txt", Mem.hello)])
  = (JList [JDict [("name", JStr "z.txt"); ("path", JStr "b/d/z.txt"); ("type", JStr "file")];
            JDict [("name", JStr "a.txt"); ("path", JStr "b/d/a.txt"); ("type", JStr "file")]],
     (with_s3fs Mem.fresh Mem.cfg,
      Mem.store [("b/d/z.txt", []); ("b/d/", []); ("b/d/a.txt", Mem.hello)])).
Proof.
  destruct (@get_response Mem.E0 Mem.cfg Mem.plain_request "b/d/" Mem.fresh
              (Mem.store [("b/d/z.txt", []); ("b/d/", []); ("b/d/a.txt", Mem.hello)])
              _ eq_refl) as [Hdir _].
  exact (Hdir (or_intror (or_introl eq_refl)) _ _ eq_refl).
Defined.

(** A copy of a file: the source has a [/], the target is the path. *)
Lemma put_copy_response_witness :
  put (E := Mem.E0) Mem.cfg (Mem.request_with "X-Custom-S3-Copy-Src" "b/d/a.txt") "c/x"
    (Mem.fresh, Mem.example)
  = (JDict [("path", JStr "c/x"); ("type", JStr "file");
            ("content", JStr (string_of_list_ascii (Base64.encodebytes Mem.hello)))],
     (with_s3fs Mem.fresh Mem.cfg,
      Mem.store [("b/d/.keep", []); ("b/d/a.txt", Mem.hello); ("c/x", Mem.hello)])).
Proof.
  apply (@put_copy_response Mem.E0 Mem.cfg (Mem.request_with "X-Custom-S3-Copy-Src" "b/d/a.txt")
           "c/x" "b/d/a.txt" Mem.fresh Mem.example
           (Mem.store [("b/d/.keep", []); ("b/d/a.txt", Mem.hello); ("c/x", Mem.hello)])).
  - reflexivity.
  - reflexivity.
  - eexists. eexists. eexists. repeat split; reflexivity.
Defined.

(** A copy of a whole bucket goes under [c/x/.keep]; the move of the same
    source goes under [c/x]. *)
Lemma copy_and_move_of_a_bucket :
  Mem.objects_after
    (snd (put (E := Mem.E0) Mem.cfg (Mem.request_with "X-Custom-S3-Copy-Src" "b") "c/x"
            (Mem.fresh, Mem.store [("b/a.txt", Mem.hello)])))
  = [("b/a.txt", Mem.hello); ("c/x/.keep/a.txt", Mem.hello)]
  /\ Mem.objects_after
       (snd (put (E := Mem.E0) Mem.cfg (Mem.request_with "X-Custom-S3-Move-Src" "b") "c/x"
               (Mem.fresh, Mem.store [("b/a.txt", Mem.hello)])))
     = [("c/x/a.txt", Mem.hello)].
Proof. split; reflexivity. Qed.

Lemma put_move_response_witness :
  put (E := Mem.E0) Mem.cfg (Mem.request_with "X-Custom-S3-Move-Src" "b/d/a.txt") "c/x"
    (Mem.fresh, Mem.example)
  = (JDict [("path", JStr "c/x"); ("type", JStr "file");
            ("content", JStr (string_of_list_ascii (Base64.encodebytes Mem.hello)))],
     (with_s3fs Mem.fresh Mem.cfg, Mem.store [("b/d/.keep", []); ("c/x", Mem.hello)])).
Proof.
  apply (@put_move_response Mem.E0 Mem.cfg (Mem.request_with "X-Custom-S3-Move-Src" "b/d/a.txt")
           "c/x" "b/d/a.txt" Mem.fresh Mem.example
           (Mem.store [("b/d/.keep", []); ("c/x", Mem.hello)])).
  - reflexivity.
  - reflexivity.
  - reflexivity.
  - eexists. eexists. eexists. repeat split; reflexivity.
Defined.


(** The directory [b/d/e] that holds only the entry [b/d/e/] is removed. *)
Lemma delete_directory_decision_witness :
  delete (E := Mem.E0) Mem.cfg "b/d/e" (Mem.fresh, Mem.store [("b/d/e/", [])])
  = (JDict [], (with_both Mem.fresh Mem.cfg, Mem.store [])).
Proof.
  destruct (@delete_directory_decision Mem.E0 Mem.cfg "b/d/e" Mem.fresh
              (Mem.store [("b/d/e/", [])]) (Mem.store [("b/d/e/", [])])
              [{| Key := "b/d/e/"; type_ := "file" |}])
    as (_ & Hdir & _).
  - apply marker_absent with (w1 := Mem.store [("b/d/e/", [])]); reflexivity.
  - destruct (Hdir eq_refl) as [Hrm _]. apply Hrm.
    eexists. split; reflexivity.
Defined.

(** C1, as it is stated, fails: the DELETE of the directory [b/d], which
    holds its marker and a file, fails with the non-empty-directory error
    and has removed the marker. *)
Lemma delete_nonempty_directory_removes_marker :
  let r := delete (E := Mem.E0) Mem.cfg "b/d" (Mem.fresh, Mem.example) in
  fst r = JDict [("error", JStr "DIR_NOT_EMPTY")]
  /\ Mem.lookup (Mem.objects Mem.example) "b/d/.keep" = Some []
  /\ Mem.lookup (Mem.objects_after (snd r)) "b/d/.keep" = None
  /\ Mem.objects_after (snd r) <> Mem.objects Mem.example.
Proof. repeat split; try reflexivity. discriminate. Qed.

Lemma delete_nonempty_directory_witness :
  delete (E := Mem.E0) Mem.cfg "b/d" (Mem.fresh, Mem.example)
  = (JDict [("error", JStr "DIR_NOT_EMPTY")],
     (with_both Mem.fresh Mem.cfg, Mem.store [("b/d/a.txt", Mem.hello)]))
  /\ delete (E := Mem.E0) Mem.cfg "b/d" (Mem.fresh, Mem.store [("b/d/a.txt", Mem.hello)])
     = (JDict [("error", JStr "DIR_NOT_EMPTY")],
        (with_both Mem.fresh Mem.cfg, Mem.store [("b/d/a.txt", Mem.hello)])).
Proof.
  destruct (@delete_nonempty_directory Mem.E0 Mem.cfg "b/d" Mem.fresh Mem.example
              (Mem.store [("b/d/a.txt", Mem.hello)])
              [{| Key := "b/d/a.txt"; type_ := "file" |}])
    as (H1 & _ & H3).
  - apply MemFacts.read_only.
  - apply marker_removed
      with (w1 := Mem.example) (w2 := Mem.store [("b/d/a.txt", Mem.hello)]); reflexivity.
  - right. eexists. repeat split; discriminate.
  - split; [exact H1|]. apply H3. reflexivity.
Defined.

(** C3, as it is stated, fails: the content [c] made of the one code point
    255 is written as the two bytes 195 and 191, and these come back. *)
Lemma write_then_read_not_the_bytes :
  let c := String "255"%char EmptyString in
  let r1 := put (E := Mem.env_for_content c) Mem.cfg (Mem.content_request c) "b/f.bin"
              (Mem.fresh, Mem.store []) in
  let r2 := get (E := Mem.env_for_content c) Mem.cfg Mem.plain_request "b/f.bin"
              (Mem.fresh, snd (snd r1)) in
  fst r1 = JDict [("path", JStr "b/f.bin"); ("type", JStr "file"); ("content", JStr c)]
  /\ exists k,
       fst r2 = JDict [("path", JStr "b/f.bin"); ("type", JStr "file"); ("content", JStr k)]
       /\ Base64.decode (list_ascii_of_string k) = ["195"%char; "191"%char]
       /\ Base64.decode (list_ascii_of_string k) <> list_ascii_of_string c.
Proof.
  split; [reflexivity|]. eexists. split; [reflexivity|].
  split; [reflexivity|]. discriminate.
Qed.

Lemma write_then_read_witness :
  exists k st2,
    get (E := Mem.env_for_content "hi") Mem.cfg Mem.plain_request "b/f.txt"
      (Mem.fresh, Mem.store [("b/f.txt", list_ascii_of_string "hi")])
    = (JDict [("path", JStr "b/f.txt"); ("type", JStr "file"); ("content", JStr k)], st2)
    /\ Base64.decode (list_ascii_of_string k) = list_ascii_of_string "hi".
Proof.
  destruct (@write_then_read (Mem.env_for_content "hi") Mem.cfg (Mem.content_request "hi")
              Mem.plain_request "b/f.txt" "hi" (JDict [("content", JStr "hi")])
              Mem.fresh Mem.fresh (Mem.store [])
              (with_s3fs Mem.fresh Mem.cfg, Mem.store [("b/f.txt", list_ascii_of_string "hi")])
              Mem.holds)
    as (k & st2 & Hg & _ & Ha).
  - apply MemFacts.reads_its_writes.
  - repeat split; try reflexivity. discriminate.
  - reflexivity.
  - reflexivity.
  - reflexivity.
  - reflexivity.
  - exists k, st2. split; [exact Hg|]. apply Ha. reflexivity.
Defined.


(** An access key that is not valid: the ambient attempt is skipped, and
    with no explicit credentials the caller is not authenticated; with
    explicit credentials the endpoint accepts, the caller is. *)
Lemma auth_skips_ambient :
  fst (auth_get Mem.E0 Mem.cfg
         (Mem.with_credentials ["aws_access_key_id = minio" ++ Mem.newline]%string true))
  = inr (JDict [("authenticated", JBool false)])
  /\ fst (auth_get Mem.E0
            {| endpoint_url := "http://minio:9000"; client_id := "minio";
               client_secret := "secret"; session_token := "" |}
            (Mem.with_credentials ["aws_access_key_id = minio" ++ Mem.newline]%string true))
     = inr (JDict [("authenticated", JBool true)]).
Proof. split; reflexivity. Qed.

(** An access-key line without [=]: the scan raises, and so does the
    handler. *)
Lemma auth_raises_on_malformed_line :
  fst (auth_get Mem.E0 Mem.cfg (Mem.with_credentials ["aws_access_key_id"] true))
  = inl (IndexError "list index out of range").
Proof. reflexivity. Qed.

End Examples.

(** ** The content of a file response *)

Module ContentFacts.

Lemma b2a_is_ascii (x : Base64.sextet) : nat_of_ascii (Base64.b2a x) < 128.
Proof.
  destruct x as [[[[[[] []] []] []] []] []]; cbv; lia.
Qed.

Lemma groups_are_ascii (s : list ascii) :
  Forall (fun c => nat_of_ascii c < 128) (Base64.b2a_groups s).
Proof.
  induction s as [|a|a b|a b c r IH] using Base64Facts.bytes_ind3;
    cbn [Base64.b2a_groups];
    repeat (apply Forall_cons; [first [apply b2a_is_ascii | cbv; lia]|]);
    first [assumption | apply Forall_nil].
Qed.

Lemma chunks_are_ascii fuel n (s : list ascii) :
  Forall (fun c => nat_of_ascii c < 128)
    (concat (map Base64.b2a_base64 (Base64.chunks_from fuel n s))).
Proof.
  revert s. induction fuel as [|fuel IH]; intros s; cbn [Base64.chunks_from].
  - constructor.
  - destruct s as [|a s']; [constructor|].
    cbn [map concat]. apply Forall_app. split; [|apply IH].
    unfold Base64.b2a_base64. apply Forall_app. split; [apply groups_are_ascii|].
    apply Forall_cons; [cbv; lia|apply Forall_nil].
Qed.

(** X16. The [content] of a file response, the base64 text of the object
    body: it holds ASCII characters only, so that [.decode("ascii")]
    cannot fail on it; decoding it gives the body back; two bodies with
    the same content are the same; and it is empty exactly for the empty
    body. *)
Theorem file_content_faithful (body : bytes) :
  Forall (fun c => nat_of_ascii c < 128) (list_ascii_of_string (b64 body))
  /\ Base64.decode (list_ascii_of_string (b64 body)) = body
  /\ (forall body', b64 body = b64 body' -> body = body')
  /\ (b64 body = EmptyString <-> body = []).
Proof.
  assert (Hd : forall b, Base64.decode (list_ascii_of_string (b64 b)) = b).
  { intros b. unfold b64. rewrite list_ascii_of_string_of_list_ascii.
    apply Base64Facts.decode_encodebytes. }
  repeat split.
  - unfold b64. rewrite list_ascii_of_string_of_list_ascii. apply chunks_are_ascii.
  - apply Hd.
  - intros body' H. rewrite <- (Hd body), <- (Hd body'). now rewrite H.
  - intros H. rewrite <- (Hd body), H. reflexivity.
  - intros ->. reflexivity.
Qed.

End ContentFacts.

(** ** The further properties on the in-memory store *)

Module FurtherExamples.

Lemma probe_changes_nothing loads b y :
  snd (list_objects_v2 (Mem.env loads) b y) = y.
Proof.
  cbn [list_objects_v2 Mem.env]. unfold Mem.m_probe.
  now destruct (existsb (String.eqb b) (Mem.denied y)).
Qed.

(** The bucket [c] answers AccessDenied and is left out. *)
Lemma role_access_listing_subsequence_witness :
  exists all_buckets x1,
    list_buckets Mem.E0 Worlds.two_buckets = (inr all_buckets, x1)
    /\ subsequence [bucket_entry "b"] (map bucket_entry all_buckets)
    /\ length [bucket_entry "b"] <= length all_buckets
    /\ Forall (fun e => jtype e = "directory" /\ name e = path e
                        /\ PyStr.endswith (name e) "/" = true) [bucket_entry "b"].
Proof.
  apply (@role_access_listing_subsequence Mem.E0 Worlds.two_buckets Worlds.two_buckets).
  reflexivity.
Defined.

Lemma role_access_listing_witness :
  _test_aws_s3_role_access Mem.E0 Worlds.two_buckets
  = (inr [{| name := "b/"; path := "b/"; jtype := "directory" |}], Worlds.two_buckets).
Proof.
  destruct (@role_access_listing Mem.E0 Worlds.two_buckets Worlds.two_buckets ["b"; "c"])
    as [H _].
  - apply probe_changes_nothing.
  - reflexivity.
  - apply H. intros b [<-|[<-|[]]]; reflexivity.
Defined.

Lemma get_listing_entries_witness :
  exists kept js,
    fst (get (E := Mem.E0) Mem.cfg Mem.plain_request "b/d/"
           (Mem.fresh, Mem.store [("b/d/", []); ("b/d/a.txt", Mem.hello)]))
    = JList js
    /\ subsequence kept [{| Key := "b/d/"; type_ := "file" |};
                         {| Key := "b/d/a.txt"; type_ := "file" |}]
    /\ Forall2 is_entry_of kept js
    /\ length js <= 2.
Proof.
  apply (@get_listing_entries Mem.E0 Mem.cfg Mem.plain_request "b/d/" Mem.fresh
           (Mem.store [("b/d/", []); ("b/d/a.txt", Mem.hello)])
           (Mem.store [("b/d/", []); ("b/d/a.txt", Mem.hello)])
           (Mem.store [("b/d/", []); ("b/d/a.txt", Mem.hello)])).
  - reflexivity.
  - reflexivity.
  - reflexivity.
Defined.

(** A body without [content] sent to the path of an object: the response
    is the 500 object of the [KeyError], and the object is empty now. *)
Lemma put_write_bad_body_witness :
  put (E := Worlds.env_for_empty_object) Mem.cfg Worlds.empty_object_request "b/d/a.txt"
    (Mem.fresh, Mem.example)
  = (JDict [("error", JInt 500); ("message", JStr "'content'")],
     (with_s3fs Mem.fresh Mem.cfg, Mem.store [("b/d/.keep", []); ("b/d/a.txt", [])])).
Proof.
  destruct (@put_write_bad_body Worlds.env_for_empty_object Mem.cfg
              Worlds.empty_object_request "b/d/a.txt" Mem.fresh Mem.example)
    as [_ H].
  - repeat split; try reflexivity. discriminate.
  - exact (H (JDict []) (KeyError "'content'") ("b/d/a.txt", w) _
             eq_refl eq_refl eq_refl).
Defined.

(** A body whose [content] is the number 5: the [TypeError] of [f.write]
    names the type, and the object is empty now. *)
Lemma put_write_integer_content :
  put (E := Worlds.env_for_integer_content) Mem.cfg Worlds.integer_content_request
    "b/d/a.txt" (Mem.fresh, Mem.example)
  = (JDict [("error", JInt 500);
            ("message", JStr "write() argument must be str, not int")],
     (with_s3fs Mem.fresh Mem.cfg, Mem.store [("b/d/.keep", []); ("b/d/a.txt", [])])).
Proof. reflexivity. Qed.

End FurtherExamples.
